(** * Cadastral Notes Map: parcel lookup and snapping (src/app.js)

    A shallow embedding of the parcel-lookup core of [src/app.js]:
    identifier and label derivation ([getParcelId], [getParcelLabel]), the
    bounding box of a coordinate array ([bboxOfCoords]), the ray-casting
    tests ([pointInRing], [pointInPolygon], [pointInGeometry]), the linear
    search [findParcelFeatureAtLatLng], the snapping branch of the
    [L.Draw.Event.CREATED] handler and the parcel and drawing notes.

    Modelling conventions.
    - The code is embedded twice.  The main embedding follows every
      dynamic case of the source (absent members, arrays nested to any
      depth, exceptions) and takes a number to be [NaN], an infinity or an
      exact rational.  Its theorems are about what does not depend on
      rounding: the control flow, comparisons, [Math.min] and [Math.max],
      and identities between two runs of the same computation; where a
      statement needs a difference of coordinates not to overflow it
      bounds their magnitudes.  The module [Binary64] embeds the same
      functions on IEEE 754 binary64 numbers, for data of the expected
      shape, and is used to compute what the code does where rounding
      decides.
    - Signed zeros are not distinguished; they could only matter in a
      division by zero.
    - A coordinates value is [undefined], a number, or an array whose leaves
      are positions [[x, y, ...]]; this covers every GeoJSON coordinate
      array, arrays nested to the wrong depth, empty arrays, a scalar in
      place of the array and an absent [coordinates] member.  An array
      with a number, [null], a string or an object where a position or an
      array is expected, such as [[5]], is not a value of the model:
      [walk] throws on it, as on a scalar.
    - Strings are sequences of Latin-1 characters; the conversion of a
      number to a string is a parameter of the identifier functions.
    - A JavaScript exception is the outcome [Throw]. *)

From Stdlib Require Import QArith Qminmax Lqa ZArith Lia Bool.
From Stdlib Require Import Ascii String DecimalString Decimal DecimalNat.
From Stdlib Require PrimFloat FloatOps SpecFloat.
From stdpp Require Import base option list gmap strings.

Set Warnings "-register-all".

Local Open Scope Q_scope.

(* ===================================================================== *)
(** ** JavaScript numbers *)
(* ===================================================================== *)

(** Numbers of the main embedding: [NaN], the infinities and the exact
    rationals, with the operations of the language on them.  The
    operations on finite numbers are exact: they neither round nor
    overflow. *)
Module JsNum.

Inductive num : Type :=
| NaN
| NegInf
| Fin (q : Q)
| PosInf.

(** Sign of a finite number, as [Lt], [Eq] or [Gt] against zero. *)
Definition sgn (q : Q) : comparison := q ?= 0.

Definition neg (a : num) : num :=
  match a with
  | NaN => NaN
  | NegInf => PosInf
  | Fin q => Fin (- q)
  | PosInf => NegInf
  end.

(** [a + b] on numbers. *)
Definition add (a b : num) : num :=
  match a, b with
  | NaN, _ | _, NaN => NaN
  | PosInf, NegInf | NegInf, PosInf => NaN
  | PosInf, _ | _, PosInf => PosInf
  | NegInf, _ | _, NegInf => NegInf
  | Fin x, Fin y => Fin (x + y)
  end.

(** [a - b]. *)
Definition sub (a b : num) : num := add a (neg b).

Definition inf_of (c : comparison) : num :=
  match c with
  | Lt => NegInf
  | Eq => NaN
  | Gt => PosInf
  end.

(** [a * b]: zero times an infinity is [NaN]. *)
Definition mul (a b : num) : num :=
  match a, b with
  | NaN, _ | _, NaN => NaN
  | Fin x, Fin y => Fin (x * y)
  | Fin x, PosInf | PosInf, Fin x => inf_of (sgn x)
  | Fin x, NegInf | NegInf, Fin x => inf_of (CompOpp (sgn x))
  | PosInf, PosInf | NegInf, NegInf => PosInf
  | PosInf, NegInf | NegInf, PosInf => NegInf
  end.

(** [a / b]: a finite non-zero number over zero is an infinity, zero over
    zero and infinity over infinity are [NaN]. *)
Definition div (a b : num) : num :=
  match a, b with
  | NaN, _ | _, NaN => NaN
  | Fin x, Fin y =>
      match sgn y with
      | Eq => inf_of (sgn x)
      | _ => Fin (x / y)
      end
  | Fin _, (PosInf | NegInf) => Fin 0
  | PosInf, Fin y => match sgn y with Lt => NegInf | _ => PosInf end
  | NegInf, Fin y => match sgn y with Lt => PosInf | _ => NegInf end
  | (PosInf | NegInf), (PosInf | NegInf) => NaN
  end.

(** [a < b]: false as soon as one side is [NaN]. *)
Definition ltb (a b : num) : bool :=
  match a, b with
  | NaN, _ | _, NaN => false
  | _, NegInf => false
  | NegInf, _ => true
  | PosInf, _ => false
  | Fin _, PosInf => true
  | Fin x, Fin y => match x ?= y with Lt => true | _ => false end
  end.

(** [a > b]. *)
Definition gtb (a b : num) : bool := ltb b a.

(** Truthiness of a number: [0] and [NaN] are falsy. *)
Definition truthy (a : num) : bool :=
  match a with
  | NaN => false
  | Fin q => negb (Qeq_bool q 0)
  | NegInf | PosInf => true
  end.

(** [a || b] on numbers. *)
Definition or (a b : num) : num := if truthy a then a else b.

(** [Math.min(a, b)] and [Math.max(a, b)]. *)
Definition min (a b : num) : num :=
  match a, b with
  | NaN, _ | _, NaN => NaN
  | _, _ => if ltb b a then b else a
  end.

Definition max (a b : num) : num :=
  match a, b with
  | NaN, _ | _, NaN => NaN
  | _, _ => if ltb a b then b else a
  end.

End JsNum.

Import JsNum.

(* ===================================================================== *)
(** ** Outcomes: a value or a thrown exception *)
(* ===================================================================== *)

Inductive exn : Type := TypeError.

Inductive outcome (A : Type) : Type :=
| Ret (a : A)
| Throw (e : exn).

Arguments Ret {A} a.
Arguments Throw {A} e.

Definition bind {A B : Type} (m : outcome A) (k : A -> outcome B) : outcome B :=
  match m with
  | Ret a => k a
  | Throw e => Throw e
  end.

Notation "'let*' x ':=' m 'in' k" := (bind m (fun x => k))
  (at level 10, x name, m at level 100, k at level 200).

(* ===================================================================== *)
(** ** Values met in a coordinates member *)
(* ===================================================================== *)

(** A GeoJSON position [[x, y, ...]]. *)
Record position : Type := Position { px : Q; py : Q; pextra : list Q }.

(** An array of a coordinates tree: a position, or an array of arrays.
    An array with any other element, such as [[5]] or [[null]], has no
    counterpart here; on those [bboxOfCoords] throws. *)
Inductive arr : Type :=
| Pos (p : position)
| Arr (l : list arr).

Inductive value : Type :=
| Undefined
| Num (q : Q)
| Array (a : arr).

(** The elements of an array, as values. *)
Definition items (a : arr) : list value :=
  match a with
  | Pos p => map Num (px p :: py p :: pextra p)
  | Arr l => map Array l
  end.

(** [v[i]]: a property read throws on [undefined], is [undefined] on a
    number and past the end of an array. *)
Definition get (v : value) (i : nat) : outcome value :=
  match v with
  | Undefined => Throw TypeError
  | Num _ => Ret Undefined
  | Array a => Ret (nth i (items a) Undefined)
  end.

(** [ToNumber] of an array goes through its string form, the elements
    joined by commas: the empty array is the empty string, hence [0]; an
    array of one element has that element's string form; two elements or
    more contain a comma, hence [NaN]. *)
Fixpoint arr_toNumber (a : arr) : num :=
  match a with
  | Pos _ => NaN
  | Arr [] => Fin 0
  | Arr [e] => arr_toNumber e
  | Arr _ => NaN
  end.

Definition toNumber (v : value) : num :=
  match v with
  | Undefined => NaN
  | Num q => Fin q
  | Array a => arr_toNumber a
  end.

(** [typeof v === 'number']. *)
Definition is_number (v : value) : bool :=
  match v with
  | Num _ => true
  | _ => false
  end.

(* ===================================================================== *)
(** ** Bounding box of a coordinates value *)
(* ===================================================================== *)

(** The array [[minX, minY, maxX, maxY]] returned by [bboxOfCoords]. *)
Record bbox : Type := BBox { minX : num; minY : num; maxX : num; maxY : num }.

(** The box before any position is seen. *)
Definition bbox_init : bbox := BBox PosInf PosInf NegInf NegInf.

(** The first branch of [walk]: the two [Math.min] and two [Math.max]
    updates with a coordinate pair. *)
Definition bbox_add (bb : bbox) (x y : Q) : bbox :=
  BBox (JsNum.min (minX bb) (Fin x)) (JsNum.min (minY bb) (Fin y))
       (JsNum.max (maxX bb) (Fin x)) (JsNum.max (maxY bb) (Fin y)).

(** [walk] on an array, the running box passed along.  On a position
    [c[0]] and [c[1]] are numbers; on any other array [c[0]] is an array
    or [undefined], so the elements are walked in turn. *)
Fixpoint walk (c : arr) (bb : bbox) : bbox :=
  match c with
  | Pos p => bbox_add bb (px p) (py p)
  | Arr l => fold_left (fun b c' => walk c' b) l bb
  end.

(** [bboxOfCoords(coords)].  On [undefined] the read [c[0]] throws; on a
    number [c[0]] is [undefined], and [c.forEach] is not a function. *)
Definition bboxOfCoords (coords : value) : outcome bbox :=
  match coords with
  | Undefined => Throw TypeError
  | Num _ => Throw TypeError
  | Array c => Ret (walk c bbox_init)
  end.

(* ===================================================================== *)
(** ** Ray casting *)
(* ===================================================================== *)

(** A query point [[x, y]], as built by [latLngToPoint]. *)
Definition point : Type := (Q * Q)%type.

(** [1e-12]. *)
Definition epsilon : num := Fin (1 # 1000000000000).

(** [(yi > y) !== (yj > y)]. *)
Definition crossing (y : Q) (yi yj : value) : bool :=
  xorb (gtb (toNumber yi) (Fin y)) (gtb (toNumber yj) (Fin y)).

(** [a + v] for a number [a].  When [v] is an array the operator
    concatenates strings, and the comparison that follows converts the
    result back to a number: the string form of [v] is empty (the number
    is [a]) or holds a comma (the number is [NaN]), which is the sum with
    [toNumber v]. *)
Definition plus (a : num) (v : value) : num := add a (toNumber v).

(** [(xj - xi) * (y - yi) / ((yj - yi) || 1e-12) + xi]. *)
Definition crossing_x (y : Q) (xi yi xj yj : value) : num :=
  plus (div (mul (sub (toNumber xj) (toNumber xi)) (sub (Fin y) (toNumber yi)))
            (or (sub (toNumber yj) (toNumber yi)) epsilon))
       xi.

(** The same with the denominator [(yj - yi)] left unguarded. *)
Definition crossing_x_exact (y : Q) (xi yi xj yj : value) : num :=
  plus (div (mul (sub (toNumber xj) (toNumber xi)) (sub (Fin y) (toNumber yi)))
            (sub (toNumber yj) (toNumber yi)))
       xi.

(** [intersect]: the right operand of [&&] is evaluated only when the
    left one is true. *)
Definition intersect (pt : point) (xi yi xj yj : value) : bool :=
  if crossing (snd pt) yi yj
  then ltb (Fin (fst pt)) (crossing_x (snd pt) xi yi xj yj)
  else false.

Definition intersect_exact (pt : point) (xi yi xj yj : value) : bool :=
  if crossing (snd pt) yi yj
  then ltb (Fin (fst pt)) (crossing_x_exact (snd pt) xi yi xj yj)
  else false.

(** The body of the [for] loop: [rest] holds [ring[i]], [ring[i+1]], ...
    and [rj] is [ring[j]], the element before them ([j = i++]). *)
Fixpoint ring_loop (test : point -> value -> value -> value -> value -> bool)
    (pt : point) (rest : list value) (rj : value) (inside : bool) : outcome bool :=
  match rest with
  | [] => Ret inside
  | ri :: rest' =>
      let* xi := get ri 0 in
      let* yi := get ri 1 in
      let* xj := get rj 0 in
      let* yj := get rj 1 in
      ring_loop test pt rest' ri
        (if test pt xi yi xj yj then negb inside else inside)
  end.

(** The loop from [i = 0], [j = ring.length - 1].  [ring.length] throws
    on [undefined]; on a number it is [undefined] and [i < undefined] is
    false at once. *)
Definition ring_with (test : point -> value -> value -> value -> value -> bool)
    (pt : point) (ring : value) : outcome bool :=
  match ring with
  | Undefined => Throw TypeError
  | Num _ => Ret false
  | Array a => ring_loop test pt (items a) (List.last (items a) Undefined) false
  end.

(** [pointInRing(pt, ring)]. *)
Definition pointInRing (pt : point) (ring : value) : outcome bool :=
  ring_with intersect pt ring.

(** [pointInRing] with the exact denominator [(yj - yi)]. *)
Definition pointInRing_exact (pt : point) (ring : value) : outcome bool :=
  ring_with intersect_exact pt ring.

(** The [for] loop of [pointInPolygon] over the holes
    [polygonCoords[1]], [polygonCoords[2]], ... *)
Fixpoint holes_loop (pt : point) (holes : list value) : outcome bool :=
  match holes with
  | [] => Ret true
  | h :: holes' =>
      let* r := pointInRing pt h in
      if r then Ret false else holes_loop pt holes'
  end.

(** [pointInPolygon(pt, polygonCoords)].  The guard
    [!polygonCoords || !polygonCoords.length] holds for [undefined], for a
    number (zero is falsy, and the [length] of a number is [undefined]) and
    for the empty array. *)
Definition pointInPolygon (pt : point) (polygonCoords : value) : outcome bool :=
  match polygonCoords with
  | Undefined => Ret false
  | Num _ => Ret false
  | Array a =>
      match items a with
      | [] => Ret false
      | outer :: holes =>
          let* r := pointInRing pt outer in
          if negb r then Ret false else holes_loop pt holes
      end
  end.

(** [array.some(f)]: stops at the first element on which [f] is true. *)
Fixpoint array_some (f : value -> outcome bool) (l : list value) : outcome bool :=
  match l with
  | [] => Ret false
  | v :: l' =>
      let* r := f v in
      if r then Ret true else array_some f l'
  end.

(** A geometry object: its [type] and [coordinates] members. *)
Record geometry : Type := Geometry { gtype : string; coordinates : value }.

(** [pointInGeometry(pt, geom)]; [None] is an absent or null geometry.
    [geom.coordinates.some] throws when [coordinates] is [undefined] or a
    number. *)
Definition pointInGeometry (pt : point) (geom : option geometry) : outcome bool :=
  match geom with
  | None => Ret false
  | Some g =>
      if String.eqb (gtype g) "Polygon" then pointInPolygon pt (coordinates g)
      else if String.eqb (gtype g) "MultiPolygon" then
        match coordinates g with
        | Array a => array_some (pointInPolygon pt) (items a)
        | _ => Throw TypeError
        end
      else Ret false
  end.

(* ===================================================================== *)
(** ** Features, identifiers and labels *)
(* ===================================================================== *)

(** A value of the [id] member or of a property: JSON null, a string or a
    number.  An absent member reads as [undefined], here [None]. *)
Inductive pval : Type :=
| PNull
| PStr (s : string)
| PNum (q : Q).

(** A feature record; [None] in [feature_properties] and
    [feature_geometry] is an absent or null member. *)
Record feature : Type := Feature {
  feature_id : option pval;
  feature_properties : option (gmap string pval);
  feature_geometry : option geometry
}.

(** White space removed by [trim], for strings of Latin-1 characters. *)
Definition is_space (c : ascii) : bool :=
  match nat_of_ascii c with
  | 9%nat | 10%nat | 11%nat | 12%nat | 13%nat | 32%nat | 160%nat => true
  | _ => false
  end.

Fixpoint trimStart (s : string) : string :=
  match s with
  | EmptyString => EmptyString
  | String c s' => if is_space c then trimStart s' else s
  end.

Fixpoint trimEnd (s : string) : string :=
  match s with
  | EmptyString => EmptyString
  | String c s' =>
      match trimEnd s' with
      | EmptyString => if is_space c then EmptyString else String c EmptyString
      | t => String c t
      end
  end.

(** [s.trim()]. *)
Definition trim (s : string) : string := trimEnd (trimStart s).

(** The decimal numeral of an array index. *)
Definition index_toString (i : nat) : string :=
  NilEmpty.string_of_uint (Nat.to_uint i).

(** Truthiness of a property read. *)
Definition truthy_pval (v : option pval) : bool :=
  match v with
  | None => false
  | Some PNull => false
  | Some (PStr s) => negb (String.eqb s "")
  | Some (PNum q) => JsNum.truthy (Fin q)
  end.

Section Identification.

(** [String(v)] of a number: the language's number-to-string
    conversion, left as a parameter. *)
Variable Number_toString : Q -> string.

(** [String(v)]. *)
Definition to_String (v : option pval) : string :=
  match v with
  | None => "undefined"
  | Some PNull => "null"
  | Some (PStr s) => s
  | Some (PNum q) => Number_toString q
  end.

(** [feature.properties || {}]. *)
Definition props_of (f : feature) : gmap string pval :=
  default ∅ (feature_properties f).

(** The array literal of [getParcelId], before the filter. *)
Definition candidates (f : feature) : list (option pval) :=
  let props := props_of f in
  [ feature_id f;
    props !! "PARCEL_ID";
    props !! "PARCELID";
    props !! "PARCEL";
    props !! "LOTPLAN";
    props !! "LOT_PLAN";
    props !! "LOT";
    props !! "PLAN";
    props !! "OBJECTID";
    props !! "ObjectID";
    props !! "ID";
    props !! "Id" ].

(** The filter predicate
    [v !== undefined && v !== null && String(v).trim() !== '']. *)
Definition candidate_ok (v : option pval) : bool :=
  match v with
  | None => false
  | Some PNull => false
  | Some _ => negb (String.eqb (trim (to_String v)) "")
  end.

(** [getParcelId(feature, index)]. *)
Definition getParcelId (f : feature) (index : nat) : string :=
  match List.filter candidate_ok (candidates f) with
  | v :: _ => to_String v
  | [] => "parcel_" +:+ index_toString index
  end.

(** [getParcelLabel(feature, pid)]. *)
Definition getParcelLabel (f : feature) (pid : string) : string :=
  let props := props_of f in
  let lot := props !! "LOT" in
  let plan := props !! "PLAN" in
  if truthy_pval lot && truthy_pval plan
  then to_String lot +:+ "/" +:+ to_String plan
  else pid.

(** The copy [{ ...f, properties: { ...(f.properties || {}), __pid: pid } }]. *)
Definition with_pid (f : feature) (pid : string) : feature :=
  Feature (feature_id f)
          (Some (<["__pid" := PStr pid]> (props_of f)))
          (feature_geometry f).

(** The value given to [cadastralFeatures] by [loadCadastralOverlay]:
    [features.map((f, i) => ...)]. *)
Definition index_features (features : list feature) : list feature :=
  imap (fun i f => with_pid f (getParcelId f i)) features.

End Identification.

(* ===================================================================== *)
(** ** Parcel search and snapping *)
(* ===================================================================== *)

Record latlng : Type := LatLng { lat : Q; lng : Q }.

(** [latLngToPoint(ll)]: GeoJSON order. *)
Definition latLngToPoint (ll : latlng) : point := (lng ll, lat ll).

(** The module state read by the search and by the [CREATED] handler. *)
Record app : Type := App {
  cadastralLoaded : bool;
  cadastralFeatures : list feature;
  snapEnabled : bool
}.

(** [pt[0] < bb[0] || pt[0] > bb[2] || pt[1] < bb[1] || pt[1] > bb[3]]. *)
Definition outside (pt : point) (bb : bbox) : bool :=
  ltb (Fin (fst pt)) (minX bb) || gtb (Fin (fst pt)) (maxX bb)
  || ltb (Fin (snd pt)) (minY bb) || gtb (Fin (snd pt)) (maxY bb).

(** The [for] loop of [findParcelFeatureAtLatLng]. *)
Fixpoint find_loop (pt : point) (fs : list feature) : outcome (option feature) :=
  match fs with
  | [] => Ret None
  | f :: fs' =>
      match feature_geometry f with
      | None => find_loop pt fs'
      | Some g =>
          let* bb := bboxOfCoords (coordinates g) in
          if outside pt bb then find_loop pt fs'
          else
            let* r := pointInGeometry pt (Some g) in
            if r then Ret (Some f) else find_loop pt fs'
      end
  end.

(** [findParcelFeatureAtLatLng(latlng)]; [None] is [null]. *)
Definition findParcelFeatureAtLatLng (st : app) (ll : latlng)
  : outcome (option feature) :=
  if negb (cadastralLoaded st) || (length (cadastralFeatures st) =? 0)%nat
  then Ret None
  else find_loop (latLngToPoint ll) (cadastralFeatures st).

(** The search with the bounding-box skip, the line
    [if (pt[0] < bb[0] || ...) continue], removed from the loop body. *)
Fixpoint find_loop_noskip (pt : point) (fs : list feature)
  : outcome (option feature) :=
  match fs with
  | [] => Ret None
  | f :: fs' =>
      match feature_geometry f with
      | None => find_loop_noskip pt fs'
      | Some g =>
          let* bb := bboxOfCoords (coordinates g) in
          let* r := pointInGeometry pt (Some g) in
          if r then Ret (Some f) else find_loop_noskip pt fs'
      end
  end.

Definition findParcelFeatureAtLatLng_noskip (st : app) (ll : latlng)
  : outcome (option feature) :=
  if negb (cadastralLoaded st) || (length (cadastralFeatures st) =? 0)%nat
  then Ret None
  else find_loop_noskip (latLngToPoint ll) (cadastralFeatures st).

(** A drawn layer, as far as the handler looks at it: the result of
    [getLatLng()] when the layer has that method, and of
    [getBounds().getCenter()] when it has [getBounds]. *)
Record layer : Type := Layer {
  getLatLng : option latlng;
  getBounds_getCenter : option latlng
}.

(** [layerCentroidLatLng(layer)]. *)
Definition layerCentroidLatLng (l : layer) : option latlng :=
  match getLatLng l with
  | Some ll => Some ll
  | None =>
      match getBounds_getCenter l with
      | Some c => Some c
      | None => None
      end
  end.

(** [parcelFeature.geometry?.type === 'Polygon' ||
     parcelFeature.geometry?.type === 'MultiPolygon']. *)
Definition is_area (f : feature) : bool :=
  match feature_geometry f with
  | None => false
  | Some g => String.eqb (gtype g) "Polygon" || String.eqb (gtype g) "MultiPolygon"
  end.

(** The body of [if (snapEnabled)] in the [L.Draw.Event.CREATED] handler:
    the parcel feature handed to [featureToEditableLeafletLayer], or [None]
    when the drawn layer is kept. *)
Definition resolve (st : app) (l : layer) : outcome (option feature) :=
  match layerCentroidLatLng l with
  | None => Ret None
  | Some centroid =>
      let* parcelFeature := findParcelFeatureAtLatLng st centroid in
      match parcelFeature with
      | Some f => if is_area f then Ret (Some f) else Ret None
      | None => Ret None
      end
  end.

(** The snapping step of the handler: nothing is replaced unless the
    snap toggle is on. *)
Definition on_created (st : app) (l : layer) : outcome (option feature) :=
  if snapEnabled st then resolve st l else Ret None.

(* ===================================================================== *)
(** ** Well-formed geometries *)
(* ===================================================================== *)

(** A ring is a list of positions, a polygon a list of rings (outer ring
    first), a multi-polygon a list of polygons. *)
Definition ring : Type := list position.

Definition ring_arr (r : ring) : arr := Arr (map Pos r).
Definition polygon_arr (rs : list ring) : arr := Arr (map ring_arr rs).
Definition multipolygon_arr (ps : list (list ring)) : arr :=
  Arr (map polygon_arr ps).

Definition ring_value (r : ring) : value := Array (ring_arr r).

Definition Polygon (rs : list ring) : geometry :=
  Geometry "Polygon" (Array (polygon_arr rs)).

Definition MultiPolygon (ps : list (list ring)) : geometry :=
  Geometry "MultiPolygon" (Array (multipolygon_arr ps)).

(** The position [[x, y]]. *)
Definition xy (x y : Q) : position := Position x y [].

(* ===================================================================== *)
(** ** Notions used in the statements *)
(* ===================================================================== *)

(** The identifiers given to a feature sequence, in order. *)
Definition parcel_ids (Number_toString : Q -> string) (features : list feature)
  : list string :=
  imap (fun i f => getParcelId Number_toString f i) features.

(** The first candidate of a feature that passes the filter, if any. *)
Definition own_candidate (Number_toString : Q -> string) (f : feature)
  : option (option pval) :=
  head (List.filter (candidate_ok Number_toString) (candidates f)).

(** Arrays of the shape of a ring, of a polygon and of a multi-polygon. *)
Definition is_pos (a : arr) : bool :=
  match a with
  | Pos _ => true
  | Arr _ => false
  end.

Definition is_ring (a : arr) : bool :=
  match a with
  | Pos _ => false
  | Arr l => forallb is_pos l
  end.

Definition is_polygon (a : arr) : bool :=
  match a with
  | Pos _ => false
  | Arr l => forallb is_ring l
  end.

Definition is_multipolygon (a : arr) : bool :=
  match a with
  | Pos _ => false
  | Arr l => forallb is_polygon l
  end.

(** A geometry whose coordinates are an array, nested as its type says
    when the type is Polygon or MultiPolygon. *)
Definition wf_geometry (g : geometry) : bool :=
  match coordinates g with
  | Array a =>
      if String.eqb (gtype g) "Polygon" then is_polygon a
      else if String.eqb (gtype g) "MultiPolygon" then is_multipolygon a
      else true
  | _ => false
  end.

(** The positions of a coordinates tree, in the order [walk] meets them. *)
Fixpoint leaves (a : arr) : list position :=
  match a with
  | Pos p => [p]
  | Arr l => flat_map leaves l
  end.

(** [v[i]] for a value that is not [undefined]. *)
Definition item (v : value) (i : nat) : value :=
  match v with
  | Array a => nth i (items a) Undefined
  | _ => Undefined
  end.

Definition defined (v : value) : bool :=
  match v with
  | Undefined => false
  | _ => true
  end.

(** The edge test between an element and the element before it. *)
Definition edge (test : point -> value -> value -> value -> value -> bool)
    (pt : point) (ri rj : value) : bool :=
  test pt (item ri 0) (item ri 1) (item rj 0) (item rj 1).

(** Parity of the number of edges that pass the test, [rj] being the
    element before [rest]. *)
Fixpoint parity (test : point -> value -> value -> value -> value -> bool)
    (pt : point) (rest : list value) (rj : value) : bool :=
  match rest with
  | [] => false
  | ri :: rest' => xorb (edge test pt ri rj) (parity test pt rest' ri)
  end.

(** [a < b] on rationals. *)
Definition Qltb (a b : Q) : bool :=
  match a ?= b with
  | Lt => true
  | _ => false
  end.

(** The containment test of a feature succeeds. *)
Definition contains (pt : point) (f : feature) : bool :=
  match pointInGeometry pt (feature_geometry f) with
  | Ret true => true
  | _ => false
  end.

(** The update of the box by one position. *)
Definition bbox_step (b : bbox) (p : position) : bbox := bbox_add b (px p) (py p).

(** A point is on one side of a list of positions. *)
Definition aside (pt : point) (ps : list position) : Prop :=
  Forall (fun p => fst pt < px p) ps \/ Forall (fun p => px p < fst pt) ps \/
  Forall (fun p => snd pt < py p) ps \/ Forall (fun p => py p < snd pt) ps.

(** The outcome of [pointInRing] on a ring of positions. *)
Definition inside_ring (pt : point) (r : ring) : bool :=
  match pointInRing pt (ring_value r) with
  | Ret b => b
  | Throw _ => false
  end.

(** The outer/hole rule on a list of rings. *)
Definition inside_polygon (pt : point) (rs : list ring) : bool :=
  match rs with
  | [] => false
  | outer :: holes =>
      inside_ring pt outer && forallb (fun h => negb (inside_ring pt h)) holes
  end.

(** A feature without geometry, or whose [coordinates] member is an
    array of the model: positions, or arrays of such arrays, at any
    depth. *)
Definition has_array_coordinates (f : feature) : bool :=
  match feature_geometry f with
  | None => true
  | Some g =>
      match coordinates g with
      | Array _ => true
      | _ => false
      end
  end.

(** The two tests of the skip on the second coordinate:
    [pt[1] < bb[1] || pt[1] > bb[3]]. *)
Definition outside_y (pt : point) (bb : bbox) : bool :=
  ltb (Fin (snd pt)) (minY bb) || gtb (Fin (snd pt)) (maxY bb).

(** A point is below or above a list of positions. *)
Definition beyond (pt : point) (ps : list position) : Prop :=
  Forall (fun p => snd pt < py p) ps \/ Forall (fun p => py p < snd pt) ps.

(** A feature passes the loop body of the search: it has a geometry, the
    point is not outside the bounding box of its coordinates, and its
    containment test succeeds. *)
Definition matches (pt : point) (f : feature) : bool :=
  match feature_geometry f with
  | None => false
  | Some g =>
      match bboxOfCoords (coordinates g) with
      | Ret bb => negb (outside pt bb) && contains pt f
      | Throw _ => false
      end
  end.

(* ===================================================================== *)
(** ** The overlay callbacks and the parcel notes *)
(* ===================================================================== *)

(** The identifier and the label computed by [onEachFeature] in
    [loadCadastralOverlay]: [getParcelId(feature, 0)] and
    [getParcelLabel(feature, pid)]. *)
Definition onEachFeature_pid (Number_toString : Q -> string) (f : feature) : string :=
  getParcelId Number_toString f 0.

Definition onEachFeature_label (Number_toString : Q -> string) (f : feature) : string :=
  getParcelLabel Number_toString f (onEachFeature_pid Number_toString f).

(** The property names every plain object inherits from
    [Object.prototype].  A read of [parcelNotes[pid]] under one of them
    answers the inherited member when the object has no such property of
    its own, and an assignment to [__proto__] stores nothing. *)
Definition Object_prototype_keys : list string :=
  ["constructor"; "hasOwnProperty"; "isPrototypeOf"; "propertyIsEnumerable";
   "toLocaleString"; "toString"; "valueOf"; "__proto__";
   "__defineGetter__"; "__defineSetter__"; "__lookupGetter__";
   "__lookupSetter__"]%string.

(** [pid] names a member of [Object.prototype]. *)
Definition inherited (pid : string) : bool :=
  existsb (String.eqb pid) Object_prototype_keys.

(** The parcel notes are the object [parcelNotes], modelled by its own
    properties, whose values are the strings the code writes.  The reads
    and writes below are those of an identifier that is not a member of
    [Object.prototype]; the statements about them assume it.

    [parcelNotes[pid] || ''], read when the note popup opens. *)
Definition previousNote (parcelNotes : gmap string string) (pid : string) : string :=
  default EmptyString (parcelNotes !! pid).

(** The assignment or deletion shared by the save button and by the undo
    callback of [openParcelNote]: [if (note) parcelNotes[pid] = note else
    delete parcelNotes[pid]]. *)
Definition set_note (parcelNotes : gmap string string) (pid note : string)
  : gmap string string :=
  if String.eqb note "" then delete pid parcelNotes
  else <[pid := note]> parcelNotes.

(** [btnSave.onclick] of [openParcelNote]: the note is the trimmed text of
    the textarea. *)
Definition save_note (parcelNotes : gmap string string) (pid text : string)
  : gmap string string :=
  set_note parcelNotes pid (trim text).


(** [if (parcelNotes[pid])]: the note icon is shown. *)
Definition has_note (parcelNotes : gmap string string) (pid : string) : bool :=
  negb (String.eqb (previousNote parcelNotes pid) "").

(** The note of a drawing, in the properties of its feature
    ([attachDrawingNoteUI]): [properties.note || ''] when the popup opens,
    [properties.note = newNote] on save with the trimmed text, and
    [properties.note = previousNote] on undo. *)
Definition drawing_previousNote (properties : gmap string string) : string :=
  default EmptyString (properties !! "note"%string).

Definition drawing_save (properties : gmap string string) (text : string)
  : gmap string string :=
  <["note"%string := trim text]> properties.

Definition drawing_undo (properties : gmap string string) (previous : string)
  : gmap string string :=
  <["note"%string := previous]> properties.

(** The ring of the axis-aligned rectangle of corners [(x0, y0)] and
    [(x1, y1)]. *)
Definition rectangle (x0 y0 x1 y1 : Q) : ring :=
  [xy x0 y0; xy x0 y1; xy x1 y1; xy x1 y0].

(** [a <= b] on rationals. *)
Definition Qleb (a b : Q) : bool := negb (Qltb b a).

(** A magnitude at which no difference of two coordinates overflows in
    binary64: [|q| <= 2^1022]. *)
Definition no_overflow (q : Q) : bool :=
  Qleb (- (2 ^ 1022)) q && Qleb q (2 ^ 1022).

(* ===================================================================== *)
(** ** The same code on binary64 numbers *)
(* ===================================================================== *)

(** The ray-casting tests, the bounding box and the search, on IEEE 754
    binary64 numbers with their rounding, for data of the expected shape:
    a position is a pair of numbers, a ring a list of positions, and a
    geometry is a Polygon or a MultiPolygon.  On such data no property
    read or call of the source can throw. *)
Module Binary64.

Import PrimFloat.
Local Open Scope float_scope.

Definition point : Type := (float * float)%type.

Definition ring : Type := list point.

Inductive geometry : Type :=
| Polygon (coordinates : list ring)
| MultiPolygon (coordinates : list (list ring)).

Record feature : Type := Feature {
  feature_id : string;
  feature_geometry : option geometry
}.

(** Truthiness of a number: [0], [-0] and [NaN] are falsy. *)
Definition truthy (a : float) : bool := negb (is_nan a || (a =? 0)).

(** [a || b] on numbers. *)
Definition or (a b : float) : float := if truthy a then a else b.

(** [1e-12]: the double nearest to it. *)
Definition epsilon : float := 0x1.19799812dea11p-40.

(** [Math.min(a, b)] and [Math.max(a, b)], up to the sign of a zero,
    which no comparison sees. *)
Definition Math_min (a b : float) : float :=
  if is_nan a || is_nan b then nan else if b <? a then b else a.

Definition Math_max (a b : float) : float :=
  if is_nan a || is_nan b then nan else if a <? b then b else a.

Record bbox : Type := BBox { minX : float; minY : float; maxX : float; maxY : float }.

Definition bbox_init : bbox := BBox infinity infinity neg_infinity neg_infinity.

(** The first branch of [walk], on a position. *)
Definition bbox_add (bb : bbox) (c : point) : bbox :=
  BBox (Math_min (minX bb) (fst c)) (Math_min (minY bb) (snd c))
       (Math_max (maxX bb) (fst c)) (Math_max (maxY bb) (snd c)).

(** [walk] on a ring, on a polygon and on the coordinates of a geometry:
    [c.forEach(walk)] at each level above the positions. *)
Definition walk_ring (r : ring) (bb : bbox) : bbox := fold_left bbox_add r bb.

Definition walk_polygon (rs : list ring) (bb : bbox) : bbox :=
  fold_left (fun b r => walk_ring r b) rs bb.

(** [bboxOfCoords(g.coordinates)]. *)
Definition bboxOfCoords (g : geometry) : bbox :=
  match g with
  | Polygon rs => walk_polygon rs bbox_init
  | MultiPolygon ps => fold_left (fun b rs => walk_polygon rs b) ps bbox_init
  end.

(** [intersect] for the vertices [ring[i]] and [ring[j]]:
    [((yi > y) !== (yj > y)) &&
     (x < (xj - xi) * (y - yi) / ((yj - yi) || 1e-12) + xi)]. *)
Definition intersect (pt vi vj : point) : bool :=
  let '(x, y) := pt in
  let '(xi, yi) := vi in
  let '(xj, yj) := vj in
  if xorb (y <? yi) (y <? yj)
  then x <? (xj - xi) * (y - yi) / (or (yj - yi) epsilon) + xi
  else false.

(** The [for] loop of [pointInRing]: [rest] holds [ring[i]], [ring[i+1]],
    ... and [vj] is [ring[j]]. *)
Fixpoint ring_loop (pt : point) (rest : ring) (vj : point) (inside : bool) : bool :=
  match rest with
  | [] => inside
  | vi :: rest' =>
      ring_loop pt rest' vi (if intersect pt vi vj then negb inside else inside)
  end.

(** [pointInRing(pt, ring)]: [j] starts at [ring.length - 1]. *)
Definition pointInRing (pt : point) (r : ring) : bool :=
  ring_loop pt r (List.last r (0, 0)) false.

(** The [for] loop of [pointInPolygon] over the holes. *)
Fixpoint holes_loop (pt : point) (holes : list ring) : bool :=
  match holes with
  | [] => true
  | h :: holes' => if pointInRing pt h then false else holes_loop pt holes'
  end.

(** [pointInPolygon(pt, polygonCoords)]. *)
Definition pointInPolygon (pt : point) (polygonCoords : list ring) : bool :=
  match polygonCoords with
  | [] => false
  | outer :: holes =>
      if negb (pointInRing pt outer) then false else holes_loop pt holes
  end.

(** [pointInGeometry(pt, geom)]. *)
Definition pointInGeometry (pt : point) (geom : option geometry) : bool :=
  match geom with
  | None => false
  | Some (Polygon rs) => pointInPolygon pt rs
  | Some (MultiPolygon ps) => existsb (pointInPolygon pt) ps
  end.

Record latlng : Type := LatLng { lat : float; lng : float }.

(** [latLngToPoint(ll)]: [[ll.lng, ll.lat]]. *)
Definition latLngToPoint (ll : latlng) : point := (lng ll, lat ll).

(** [pt[0] < bb[0] || pt[0] > bb[2] || pt[1] < bb[1] || pt[1] > bb[3]]. *)
Definition outside (pt : point) (bb : bbox) : bool :=
  (fst pt <? minX bb) || (maxX bb <? fst pt)
  || (snd pt <? minY bb) || (maxY bb <? snd pt).

(** The [for] loop of [findParcelFeatureAtLatLng]. *)
Fixpoint find_loop (pt : point) (fs : list feature) : option feature :=
  match fs with
  | [] => None
  | f :: fs' =>
      match feature_geometry f with
      | None => find_loop pt fs'
      | Some g =>
          if outside pt (bboxOfCoords g) then find_loop pt fs'
          else if pointInGeometry pt (Some g) then Some f
          else find_loop pt fs'
      end
  end.

(** The loop without the line of the bounding-box skip. *)
Fixpoint find_loop_noskip (pt : point) (fs : list feature) : option feature :=
  match fs with
  | [] => None
  | f :: fs' =>
      match feature_geometry f with
      | None => find_loop_noskip pt fs'
      | Some g =>
          if pointInGeometry pt (Some g) then Some f
          else find_loop_noskip pt fs'
      end
  end.

Record app : Type := App {
  cadastralLoaded : bool;
  cadastralFeatures : list feature;
  snapEnabled : bool
}.

(** [findParcelFeatureAtLatLng(latlng)]. *)
Definition findParcelFeatureAtLatLng (st : app) (ll : latlng) : option feature :=
  if negb (cadastralLoaded st) || (length (cadastralFeatures st) =? 0)%nat
  then None
  else find_loop (latLngToPoint ll) (cadastralFeatures st).

Definition findParcelFeatureAtLatLng_noskip (st : app) (ll : latlng)
  : option feature :=
  if negb (cadastralLoaded st) || (length (cadastralFeatures st) =? 0)%nat
  then None
  else find_loop_noskip (latLngToPoint ll) (cadastralFeatures st).

Record layer : Type := Layer {
  getLatLng : option latlng;
  getBounds_getCenter : option latlng
}.

(** [layerCentroidLatLng(layer)]. *)
Definition layerCentroidLatLng (l : layer) : option latlng :=
  match getLatLng l with
  | Some ll => Some ll
  | None => getBounds_getCenter l
  end.

(** The type test of the handler.  A geometry of this module is a
    Polygon or a MultiPolygon, so the test passes as soon as the feature
    has a geometry. *)
Definition is_area (f : feature) : bool :=
  match feature_geometry f with
  | None => false
  | Some _ => true
  end.

(** The body of [if (snapEnabled)] in the [L.Draw.Event.CREATED] handler. *)
Definition resolve (st : app) (l : layer) : option feature :=
  match layerCentroidLatLng l with
  | None => None
  | Some centroid =>
      match findParcelFeatureAtLatLng st centroid with
      | Some f => if is_area f then Some f else None
      | None => None
      end
  end.

(** The snapping step of the handler: the parcel that replaces the drawn
    layer, or [None] when the layer is kept. *)
Definition on_created (st : app) (l : layer) : option feature :=
  if snapEnabled st then resolve st l else None.

(** The rational a finite binary64 number stands for. *)
Definition to_Q (a : float) : Q :=
  match FloatOps.Prim2SF a with
  | SpecFloat.S754_finite s m e =>
      let q := ((Z.pos m # 1) * 2 ^ e)%Q in
      if s then (- q)%Q else q
  | _ => 0%Q
  end.

(** A triangular parcel and a square parcel around it.  [fifth] is the
    double nearest to 0.2, and the query point is at that latitude,
    [2^-53] to the west of the triangle's west-most vertices. *)
Definition fifth : float := 0x1.999999999999ap-3.

Definition triangle : geometry := Polygon [[(0, 0); (0, fifth); (3, 1)]].

Definition square : geometry := Polygon [[(-1, -1); (-1, 2); (4, 2); (4, -1)]].

Definition parcel_A : feature := Feature "A" (Some triangle).

Definition parcel_B : feature := Feature "B" (Some square).

Definition west_of_A : latlng := LatLng fifth (-0x1p-53).

(** A parcel whose east side runs from (0,0) to (1,3), and the point at
    latitude 1 whose longitude [third] is the double nearest to 1/3,
    which is less than 1/3: the point is inside the parcel. *)
Definition third : float := 0x1.5555555555555p-2.

Definition quadrilateral : geometry :=
  Polygon [[(-2, 3); (1, 3); (0, 0); (-2, 0)]].

Definition parcel_Q : feature := Feature "Q" (Some quadrilateral).

Definition inside_Q : latlng := LatLng 1 third.

End Binary64.

(** The data of [Binary64] read in the main embedding: the same numbers,
    with exact arithmetic on them. *)
Definition exact_point (pt : Binary64.point) : point :=
  (Binary64.to_Q (fst pt), Binary64.to_Q (snd pt)).

Definition exact_ring (r : Binary64.ring) : ring :=
  map (fun c => xy (Binary64.to_Q (fst c)) (Binary64.to_Q (snd c))) r.

Definition exact_geometry (g : Binary64.geometry) : geometry :=
  match g with
  | Binary64.Polygon rs => Polygon (map exact_ring rs)
  | Binary64.MultiPolygon ps => MultiPolygon (map (map exact_ring) ps)
  end.

(* ===================================================================== *)
(** * Properties *)
(* ===================================================================== *)

(** ** Identifiers and labels *)

Section IdentificationFacts.

Variable N : Q -> string.

Lemma candidate_ok_spec (v : option pval) :
  candidate_ok N v = true <->
  v <> None /\ v <> Some PNull /\ trim (to_String N v) <> ""%string.
Proof.
  destruct v as [[ | s | q] | ]; simpl.
  - split; [discriminate | intros (_ & H & _); congruence].
  - rewrite negb_true_iff, String.eqb_neq. split.
    + intros H. repeat split; congruence.
    + intros (_ & _ & H). exact H.
  - rewrite negb_true_iff, String.eqb_neq. split.
    + intros H. repeat split; congruence.
    + intros (_ & _ & H). exact H.
  - split; [discriminate | intros (H & _); congruence].
Qed.

Lemma filter_head_first {A : Type} (p : A -> bool) (l : list A) (n : nat) (v : A) :
  l !! n = Some v ->
  p v = true ->
  (forall m w, (m < n)%nat -> l !! m = Some w -> p w = false) ->
  head (List.filter p l) = Some v.
Proof.
  revert n. induction l as [ | a l IH]; intros n Hn Hv Hbefore.
  - destruct n; discriminate.
  - destruct n as [ | n]; simpl in *.
    + injection Hn as ->. rewrite Hv. reflexivity.
    + rewrite (Hbefore 0%nat a) by (simpl; auto with lia).
      apply (IH n); auto.
      intros m w Hm Hw. apply (Hbefore (S m) w); [lia | exact Hw].
Qed.

Lemma filter_none {A : Type} (p : A -> bool) (l : list A) :
  (forall v, v ∈ l -> p v = false) -> List.filter p l = [].
Proof.
  induction l as [ | a l IH]; intros H; simpl; [reflexivity | ].
  rewrite (H a) by (apply list_elem_of_here).
  apply IH. intros v Hv. apply H. apply list_elem_of_further, Hv.
Qed.

Lemma getParcelId_own (f : feature) (i : nat) (v : option pval) :
  own_candidate N f = Some v -> getParcelId N f i = to_String N v.
Proof.
  unfold own_candidate, getParcelId.
  destruct (List.filter (candidate_ok N) (candidates f)); simpl; congruence.
Qed.

Lemma getParcelId_fallback (f : feature) (i : nat) :
  own_candidate N f = None ->
  getParcelId N f i = ("parcel_" +:+ index_toString i)%string.
Proof.
  unfold own_candidate, getParcelId.
  destruct (List.filter (candidate_ok N) (candidates f)); simpl; congruence.
Qed.

Lemma index_toString_inj (i j : nat) :
  index_toString i = index_toString j -> i = j.
Proof.
  unfold index_toString. intros H.
  apply Unsigned.to_uint_inj.
  assert (Hs : Some (Nat.to_uint i) = Some (Nat.to_uint j)).
  { rewrite <- !NilEmpty.usu. rewrite H. reflexivity. }
  congruence.
Qed.

Lemma fallback_inj (i j : nat) :
  ("parcel_" +:+ index_toString i)%string = ("parcel_" +:+ index_toString j)%string ->
  i = j.
Proof.
  intros H. apply index_toString_inj.
  cbv [String.app] in H. congruence.
Qed.

End IdentificationFacts.

(** C6.  The identifier of the feature at position [i] is the string
    form of the first candidate, in the order top-level id, PARCEL_ID,
    PARCELID, PARCEL, LOTPLAN, LOT_PLAN, LOT, PLAN, OBJECTID, ObjectID, ID,
    Id, that is neither undefined nor null nor empty after trimming; when
    no candidate qualifies it is "parcel_<i>".  A feature with PARCEL_ID
    "7" and no top-level id gets "7"; a feature without identifying
    properties at position 3 gets "parcel_3". *)
Theorem getParcelId_priority (N : Q -> string) (f : feature) (i : nat) :
  let props := default ∅ (feature_properties f) in
  let cs :=
    feature_id f ::
    map (fun k : string => props !! k)
        ["PARCEL_ID"; "PARCELID"; "PARCEL"; "LOTPLAN"; "LOT_PLAN"; "LOT";
         "PLAN"; "OBJECTID"; "ObjectID"; "ID"; "Id"]%string in
  let qualifies := fun v : option pval =>
    v <> None /\ v <> Some PNull /\ trim (to_String N v) <> ""%string in
  (forall n v,
      cs !! n = Some v -> qualifies v ->
      (forall m w, (m < n)%nat -> cs !! m = Some w -> ~ qualifies w) ->
      getParcelId N f i = to_String N v)
  /\ ((forall v, v ∈ cs -> ~ qualifies v) ->
      getParcelId N f i = ("parcel_" +:+ index_toString i)%string)
  /\ (feature_id f = None -> props !! "PARCEL_ID"%string = Some (PStr "7") ->
      getParcelId N f i = "7"%string)
  /\ (i = 3%nat -> (forall v, v ∈ cs -> v = None) ->
      getParcelId N f i = "parcel_3"%string).
Proof.
  intros props cs qualifies.
  assert (Hcs : candidates f = cs) by reflexivity.
  assert (Hok : forall v, candidate_ok N v = true <-> qualifies v)
    by (intros v; apply candidate_ok_spec).
  assert (Hno : forall v, candidate_ok N v = false <-> ~ qualifies v).
  { intros v. rewrite <- Hok. destruct (candidate_ok N v); split; congruence. }
  assert (Hfirst : forall n v,
      cs !! n = Some v -> qualifies v ->
      (forall m w, (m < n)%nat -> cs !! m = Some w -> ~ qualifies w) ->
      getParcelId N f i = to_String N v).
  { intros n v Hn Hv Hbefore. apply getParcelId_own.
    unfold own_candidate. rewrite Hcs.
    apply (filter_head_first _ cs n v Hn).
    - apply Hok, Hv.
    - intros m w Hm Hw. apply Hno. eapply Hbefore; eauto. }
  assert (Hnone : (forall v, v ∈ cs -> ~ qualifies v) ->
      getParcelId N f i = ("parcel_" +:+ index_toString i)%string).
  { intros H. apply getParcelId_fallback.
    unfold own_candidate. rewrite Hcs, filter_none; [reflexivity | ].
    intros v Hv. apply Hno, H, Hv. }
  repeat split.
  - exact Hfirst.
  - exact Hnone.
  - intros Hid H7. apply (Hfirst 1%nat (Some (PStr "7"))).
    + simpl. rewrite H7. reflexivity.
    + repeat split; [discriminate | discriminate | ].
      vm_compute. discriminate.
    + intros m w Hm Hw. assert (m = 0%nat) as -> by lia.
      simpl in Hw. rewrite Hid in Hw. injection Hw as <-.
      intros (H & _). apply H. reflexivity.
  - intros -> H. rewrite Hnone; [reflexivity | ].
    intros v Hv. rewrite (H v Hv). intros (H0 & _). apply H0. reflexivity.
Qed.

Lemma getParcelId_priority_witness :
  getParcelId (fun _ => "0"%string)
    (Feature None (Some {[ "PARCEL_ID"%string := PStr "7" ]}) None) 0 = "7"%string
  /\ getParcelId (fun _ => "0"%string)
       (Feature (Some PNull) (Some {[ "LOT"%string := PStr "  " ]}) None) 3
     = "parcel_3"%string.
Proof.
  split.
  - apply (proj1 (getParcelId_priority (fun _ => "0"%string)
             (Feature None (Some {[ "PARCEL_ID"%string := PStr "7" ]}) None) 0)
             1%nat (Some (PStr "7"))).
    + reflexivity.
    + repeat split; [discriminate | discriminate | vm_compute; discriminate].
    + intros m w Hm Hw. assert (m = 0%nat) as -> by lia.
      injection Hw as <-. intros (H & _). apply H. reflexivity.
  - apply (proj1 (proj2 (getParcelId_priority (fun _ => "0"%string)
             (Feature (Some PNull) (Some {[ "LOT"%string := PStr "  " ]}) None) 3))).
    intros v Hv (H1 & H2 & H3).
    apply list_elem_of_In in Hv. vm_compute in Hv.
    repeat (destruct Hv as [<- | Hv];
            [ first [ apply H1; reflexivity | apply H2; reflexivity
                    | apply H3; reflexivity ] | ]).
    exact Hv.
Defined.

(** [getParcelLabel]: when the LOT and PLAN properties are both present
    and truthy the result is "<LOT>/<PLAN>"; otherwise it is the second
    argument.  LOT "12" with PLAN "DP4567" gives "12/DP4567". *)
Lemma getParcelLabel_lot_plan (N : Q -> string) (f : feature) (pid : string) :
  let props := default ∅ (feature_properties f) in
  let lot := props !! "LOT"%string in
  let plan := props !! "PLAN"%string in
  (truthy_pval lot = true -> truthy_pval plan = true ->
   getParcelLabel N f pid = (to_String N lot +:+ "/" +:+ to_String N plan)%string)
  /\ (truthy_pval lot = false \/ truthy_pval plan = false ->
      getParcelLabel N f pid = pid)
  /\ (lot = Some (PStr "12") -> plan = Some (PStr "DP4567") ->
      getParcelLabel N f pid = "12/DP4567"%string).
Proof.
  intros props lot plan. unfold getParcelLabel, props_of.
  subst lot plan props. cbv zeta.
  repeat split.
  - intros H1 H2. rewrite H1, H2. reflexivity.
  - intros [H | H]; rewrite H; [reflexivity | ].
    rewrite andb_false_r. reflexivity.
  - intros H1 H2. rewrite H1, H2. reflexivity.
Qed.

(** C9 fails on the code.  The overlay derives the identifier it labels
    a record with from position 0, whatever the position of the record:
    the label is "<LOT>/<PLAN>" when both properties are truthy, and
    otherwise [getParcelId(feature, 0)].  For the record at position [i]
    of the collection this is its stored identifier when the record has a
    qualifying candidate; a record without one is labelled "parcel_0",
    while its stored identifier is "parcel_<i>", and the two differ as
    soon as [i] is not 0. *)
Theorem onEachFeature_label_position_zero
    (N : Q -> string) (fs : list feature) (i : nat) (f : feature) :
  let props := default ∅ (feature_properties f) in
  let lot := props !! "LOT"%string in
  let plan := props !! "PLAN"%string in
  fs !! i = Some f ->
  parcel_ids N fs !! i = Some (getParcelId N f i)
  /\ (truthy_pval lot = true -> truthy_pval plan = true ->
      onEachFeature_label N f = (to_String N lot +:+ "/" +:+ to_String N plan)%string)
  /\ (truthy_pval lot = false \/ truthy_pval plan = false ->
      onEachFeature_label N f = getParcelId N f 0
      /\ (own_candidate N f <> None -> onEachFeature_label N f = getParcelId N f i)
      /\ (own_candidate N f = None ->
          onEachFeature_label N f = "parcel_0"%string
          /\ getParcelId N f i = ("parcel_" +:+ index_toString i)%string
          /\ (i <> 0%nat -> onEachFeature_label N f <> getParcelId N f i))).
Proof.
  intros props lot plan Hi.
  pose proof (getParcelLabel_lot_plan N f (onEachFeature_pid N f)) as (Hlp & Hpid & _).
  fold props in Hlp, Hpid. fold lot in Hlp, Hpid. fold plan in Hlp, Hpid.
  split; [ | split].
  - unfold parcel_ids. rewrite list_lookup_imap, Hi. reflexivity.
  - exact Hlp.
  - intros Hno. specialize (Hpid Hno).
    change (onEachFeature_label N f = onEachFeature_pid N f) in Hpid.
    rewrite Hpid. unfold onEachFeature_pid.
    split; [reflexivity | split].
    + intros Hown. destruct (own_candidate N f) as [v | ] eqn:E; [ | congruence].
      rewrite !(getParcelId_own N f _ v E). reflexivity.
    + intros Hown. rewrite !(getParcelId_fallback N f _ Hown).
      split; [reflexivity | split; [reflexivity | ]].
      intros Hne Heq. apply Hne. symmetry. apply (fallback_inj _ _ Heq).
Qed.

Lemma onEachFeature_label_position_zero_witness :
  let f := Feature None None None in
  let N := fun _ : Q => "0"%string in
  parcel_ids N [f; f; f] !! 2%nat = Some "parcel_2"%string
  /\ onEachFeature_label N f = "parcel_0"%string
  /\ onEachFeature_label N f <> getParcelId N f 2.
Proof.
  intros f N.
  pose proof (onEachFeature_label_position_zero N [f; f; f] 2 f eq_refl)
    as (Hid & _ & Hpid).
  destruct (Hpid (or_introl eq_refl)) as (_ & _ & Hnone).
  destruct (Hnone eq_refl) as (H0 & _ & Hne).
  split; [exact Hid | split; [exact H0 | apply Hne; discriminate]].
Defined.

(** The stored copies carry the identifiers of [parcel_ids], in the order
    of the input features. *)
Lemma index_features_lookup (N : Q -> string) (fs : list feature) (i : nat) :
  index_features N fs !! i =
  (fun f => with_pid f (getParcelId N f i)) <$> fs !! i.
Proof. unfold index_features. apply list_lookup_imap. Qed.

Lemma index_features_pid (N : Q -> string) (fs : list feature) (i : nat) (f' : feature) :
  index_features N fs !! i = Some f' ->
  exists pid, parcel_ids N fs !! i = Some pid /\
              props_of f' !! "__pid"%string = Some (PStr pid).
Proof.
  rewrite index_features_lookup. unfold parcel_ids. rewrite list_lookup_imap.
  destruct (fs !! i) as [f | ]; simpl; [ | discriminate].
  intros H. injection H as <-. eexists. split; [reflexivity | ].
  unfold with_pid, props_of at 1. simpl. apply lookup_insert_eq.
Qed.

(** C8, as the code has it.  The identifiers are pairwise distinct when
    no two features have the same first qualifying candidate string and
    no such string is the fallback name of another position that falls
    back; fallback names of distinct positions always differ. *)
Theorem parcel_ids_distinct (N : Q -> string) (fs : list feature) :
  (forall i j fi fj,
      i <> j -> fs !! i = Some fi -> fs !! j = Some fj ->
      match own_candidate N fi, own_candidate N fj with
      | Some vi, Some vj => to_String N vi <> to_String N vj
      | Some vi, None => to_String N vi <> ("parcel_" +:+ index_toString j)%string
      | None, _ => True
      end) ->
  NoDup (parcel_ids N fs).
Proof.
  intros Hdata. apply NoDup_alt. intros i j s Hi Hj.
  unfold parcel_ids in Hi, Hj. rewrite list_lookup_imap in Hi, Hj.
  destruct (fs !! i) as [fi | ] eqn:Efi; [ | discriminate].
  destruct (fs !! j) as [fj | ] eqn:Efj; [ | discriminate].
  simpl in Hi, Hj. injection Hi as Hi. injection Hj as Hj.
  destruct (decide (i = j)) as [ | Hne]; [assumption | exfalso].
  assert (Hij := Hdata i j fi fj Hne Efi Efj).
  assert (Hji := Hdata j i fj fi (not_eq_sym Hne) Efj Efi).
  destruct (own_candidate N fi) as [vi | ] eqn:Ei;
    destruct (own_candidate N fj) as [vj | ] eqn:Ej.
  - rewrite (getParcelId_own N fi i vi Ei) in Hi.
    rewrite (getParcelId_own N fj j vj Ej) in Hj. congruence.
  - rewrite (getParcelId_own N fi i vi Ei) in Hi.
    rewrite (getParcelId_fallback N fj j Ej) in Hj. congruence.
  - rewrite (getParcelId_fallback N fi i Ei) in Hi.
    rewrite (getParcelId_own N fj j vj Ej) in Hj. congruence.
  - rewrite (getParcelId_fallback N fi i Ei) in Hi.
    rewrite (getParcelId_fallback N fj j Ej) in Hj.
    apply Hne, fallback_inj. congruence.
Qed.

Lemma parcel_ids_distinct_witness :
  NoDup (parcel_ids (fun _ => "0"%string)
           [ Feature (Some (PStr "A")) None None;
             Feature None None None;
             Feature None (Some {[ "LOT"%string := PStr "12" ]}) None ]).
Proof.
  apply parcel_ids_distinct.
  intros i j fi fj Hne Hi Hj.
  destruct i as [ | [ | [ | i]]]; try discriminate;
    destruct j as [ | [ | [ | j]]]; try discriminate;
    try (exfalso; apply Hne; reflexivity);
    injection Hi as <-; injection Hj as <-;
    vm_compute; try exact I; discriminate.
Defined.

(** C8 fails as stated: two features with the same PARCEL_ID receive the
    same identifier. *)
Lemma parcel_ids_shared :
  let f := Feature None (Some {[ "PARCEL_ID"%string := PStr "7" ]}) None in
  parcel_ids (fun _ => "0"%string) [f; f] = ["7"; "7"]%string
  /\ ~ NoDup (parcel_ids (fun _ => "0"%string) [f; f]).
Proof.
  split; [reflexivity | ].
  intros H. apply NoDup_cons in H as [H _].
  apply H. vm_compute. apply list_elem_of_here.
Qed.

(** ** Numbers *)

Lemma Qltb_lt (a b : Q) : Qltb a b = true <-> a < b.
Proof.
  unfold Qltb. rewrite Qlt_alt. destruct (a ?= b); split; congruence.
Qed.

Lemma Qltb_ge (a b : Q) : Qltb a b = false <-> b <= a.
Proof.
  split.
  - intros H. apply Qnot_lt_le. intros Hlt. apply Qltb_lt in Hlt. congruence.
  - intros H. destruct (Qltb a b) eqn:E; [ | reflexivity].
    apply Qltb_lt in E. lra.
Qed.

Lemma ltb_Fin (a b : Q) : ltb (Fin a) (Fin b) = Qltb a b.
Proof. reflexivity. Qed.

Lemma gtb_Fin (a b : Q) : gtb (Fin a) (Fin b) = Qltb b a.
Proof. reflexivity. Qed.

Lemma truthy_Fin (q : Q) : truthy (Fin q) = true <-> ~ q == 0.
Proof.
  simpl. rewrite negb_true_iff. split.
  - intros H Hq. apply Qeq_bool_iff in Hq. congruence.
  - intros H. destruct (Qeq_bool q 0) eqn:E; [ | reflexivity].
    apply Qeq_bool_iff in E. contradiction.
Qed.

Lemma sgn_nonzero (q : Q) : ~ q == 0 -> sgn q <> Eq.
Proof. unfold sgn. rewrite <- Qeq_alt. auto. Qed.

Lemma div_Fin (a d : Q) : ~ d == 0 -> div (Fin a) (Fin d) = Fin (a / d).
Proof.
  intros H. apply sgn_nonzero in H. simpl. destruct (sgn d); congruence.
Qed.

Lemma min_Fin_lt (x q : Q) (a : num) :
  ltb (Fin x) (JsNum.min a (Fin q)) = true ->
  ltb (Fin x) a = true /\ x < q.
Proof.
  destruct a as [ | | a | ]; unfold JsNum.min; try discriminate.
  - rewrite ltb_Fin. destruct (Qltb q a) eqn:E; rewrite !ltb_Fin, !Qltb_lt.
    + apply Qltb_lt in E. lra.
    + apply Qltb_ge in E. lra.
  - change (ltb (Fin q) PosInf) with true. cbv iota.
    rewrite ltb_Fin, Qltb_lt. auto.
Qed.

Lemma max_Fin_gt (x q : Q) (a : num) :
  gtb (Fin x) (JsNum.max a (Fin q)) = true ->
  gtb (Fin x) a = true /\ q < x.
Proof.
  destruct a as [ | | a | ]; unfold JsNum.max; try discriminate.
  - change (ltb NegInf (Fin q)) with true. cbv iota.
    rewrite gtb_Fin, Qltb_lt. auto.
  - rewrite ltb_Fin. destruct (Qltb a q) eqn:E; rewrite !gtb_Fin, !Qltb_lt.
    + apply Qltb_lt in E. lra.
    + apply Qltb_ge in E. lra.
Qed.

(** ** Nested arrays *)

Lemma arr_nested_ind (P : arr -> Prop) :
  (forall p, P (Pos p)) ->
  (forall l, Forall P l -> P (Arr l)) ->
  forall a, P a.
Proof.
  intros HPos HArr. fix IH 1. intros [p | l].
  - apply HPos.
  - apply HArr. induction l as [ | a l IHl]; constructor.
    + apply IH.
    + exact IHl.
Qed.

Lemma items_defined (a : arr) : forallb defined (items a) = true.
Proof.
  destruct a as [p | l]; simpl.
  - induction (pextra p); simpl; auto.
  - induction l; simpl; auto.
Qed.

Lemma get_item (v : value) (i : nat) :
  defined v = true -> get v i = Ret (item v i).
Proof. destruct v; simpl; [discriminate | reflexivity | reflexivity]. Qed.

Lemma last_defined (l : list value) (d : value) :
  forallb defined l = true -> l <> [] -> defined (List.last l d) = true.
Proof.
  induction l as [ | v l IH]; intros Hl Hne; [congruence | ].
  simpl in Hl. apply andb_true_iff in Hl as [Hv Hl].
  destruct l as [ | w l]; [exact Hv | ].
  apply IH; [exact Hl | discriminate].
Qed.

Lemma last_shift {A : Type} (a d : A) (l : list A) :
  List.last (a :: l) d = List.last l a.
Proof.
  revert a d. induction l as [ | b l IH]; intros a d; [reflexivity | ].
  change (List.last (a :: b :: l) d) with (List.last (b :: l) d).
  rewrite (IH b d), (IH b a). reflexivity.
Qed.

(** ** The ring loop *)

Section RingLoop.

Variable test : point -> value -> value -> value -> value -> bool.
Variable pt : point.

Lemma ring_loop_parity (rest : list value) (rj : value) (inside : bool) :
  defined rj = true -> forallb defined rest = true ->
  ring_loop test pt rest rj inside = Ret (xorb inside (parity test pt rest rj)).
Proof.
  revert rj inside. induction rest as [ | ri rest IH]; intros rj inside Hj Hrest.
  - simpl. rewrite xorb_false_r. reflexivity.
  - simpl in Hrest. apply andb_true_iff in Hrest as [Hi Hrest].
    simpl. rewrite !(get_item ri), !(get_item rj) by assumption. simpl.
    rewrite IH by assumption. f_equal. unfold edge.
    destruct (test pt (item ri 0) (item ri 1) (item rj 0) (item rj 1)),
      inside, (parity test pt rest ri); reflexivity.
Qed.

(** The loop on an array never throws. *)
Lemma ring_with_array (a : arr) :
  ring_with test pt (Array a) =
  Ret (parity test pt (items a) (List.last (items a) Undefined)).
Proof.
  unfold ring_with. destruct (items a) as [ | v l] eqn:E; [reflexivity | ].
  assert (Hd : forallb defined (v :: l) = true) by (rewrite <- E; apply items_defined).
  rewrite ring_loop_parity; [reflexivity | | exact Hd].
  apply last_defined; [exact Hd | discriminate].
Qed.

Lemma parity_app (rest : list value) (v rj : value) :
  parity test pt (rest ++ [v]) rj =
  xorb (parity test pt rest rj) (edge test pt v (List.last rest rj)).
Proof.
  revert rj. induction rest as [ | ri rest IH]; intros rj.
  - simpl. rewrite xorb_false_r. reflexivity.
  - change ((ri :: rest) ++ [v]) with (ri :: (rest ++ [v])).
    cbn [parity]. rewrite IH.
    rewrite last_shift, xorb_assoc. reflexivity.
Qed.

(** Closing an array by a copy of its first element does not change
    the outcome, when the test of an element against itself fails. *)
Lemma ring_with_closed (first : arr) (rest : list arr) :
  edge test pt (Array first) (Array first) = false ->
  ring_with test pt (Array (Arr ((first :: rest) ++ [first]))) =
  ring_with test pt (Array (Arr (first :: rest))).
Proof.
  intros Hself. rewrite !ring_with_array. f_equal.
  cbn [items]. rewrite map_app.
  change (map Array [first]) with [Array first].
  change (map Array (first :: rest)) with (Array first :: map Array rest).
  set (vs := map Array rest). set (v0 := Array first).
  change ((v0 :: vs) ++ [v0]) with (v0 :: (vs ++ [v0])).
  replace (List.last (v0 :: vs ++ [v0]) Undefined) with v0
    by (rewrite app_comm_cons, last_last; reflexivity).
  change (edge test pt v0 v0 = false) in Hself.
  cbn [parity]. rewrite Hself, parity_app, xorb_false_l.
  rewrite last_shift. apply xorb_comm.
Qed.

End RingLoop.

(** ** Edges between positions *)

Lemma crossing_Num (y yi yj : Q) :
  crossing y (Num yi) (Num yj) = xorb (Qltb y yi) (Qltb y yj).
Proof. reflexivity. Qed.

Lemma crossing_between (y yi yj : Q) :
  crossing y (Num yi) (Num yj) = true <->
  (yi <= y < yj \/ yj <= y < yi).
Proof.
  rewrite crossing_Num.
  destruct (Qltb y yi) eqn:Ei, (Qltb y yj) eqn:Ej; simpl;
    first [apply Qltb_lt in Ei | apply Qltb_ge in Ei];
    first [apply Qltb_lt in Ej | apply Qltb_ge in Ej];
    (split; [ intros H; try discriminate; lra
            | intros [H | H]; try reflexivity; lra ]).
Qed.

Lemma crossing_guard (y yi yj : Q) :
  crossing y (Num yi) (Num yj) = true ->
  JsNum.or (sub (Fin yj) (Fin yi)) epsilon = Fin (yj - yi).
Proof.
  intros H. apply crossing_between in H.
  unfold JsNum.or. change (sub (Fin yj) (Fin yi)) with (Fin (yj - yi)).
  assert (Ht : truthy (Fin (yj - yi)) = true) by (apply truthy_Fin; lra).
  rewrite Ht. reflexivity.
Qed.

(** The x-coordinate at which a crossing edge meets the ray. *)
Lemma crossing_x_Num (y xi yi xj yj : Q) :
  crossing y (Num yi) (Num yj) = true ->
  crossing_x y (Num xi) (Num yi) (Num xj) (Num yj)
  = Fin ((xj - xi) * (y - yi) / (yj - yi) + xi)
  /\ crossing_x_exact y (Num xi) (Num yi) (Num xj) (Num yj)
     = Fin ((xj - xi) * (y - yi) / (yj - yi) + xi).
Proof.
  intros H. unfold crossing_x, crossing_x_exact.
  cbn [toNumber]. rewrite (crossing_guard y yi yj H).
  apply crossing_between in H.
  change (sub (Fin yj) (Fin yi)) with (Fin (yj - yi)).
  change (sub (Fin xj) (Fin xi)) with (Fin (xj - xi)).
  change (sub (Fin y) (Fin yi)) with (Fin (y - yi)).
  cbn [mul]. rewrite div_Fin by lra. split; reflexivity.
Qed.

Lemma intersect_exact_Num (pt : point) (xi yi xj yj : Q) :
  intersect_exact pt (Num xi) (Num yi) (Num xj) (Num yj) =
  intersect pt (Num xi) (Num yi) (Num xj) (Num yj).
Proof.
  unfold intersect, intersect_exact.
  destruct (crossing (snd pt) (Num yi) (Num yj)) eqn:E; [ | reflexivity].
  destruct (crossing_x_Num (snd pt) xi yi xj yj E) as [-> ->]. reflexivity.
Qed.

Lemma edge_below (pt : point) (vi vj : position) :
  snd pt < py vi -> snd pt < py vj ->
  edge intersect pt (Array (Pos vi)) (Array (Pos vj)) = false.
Proof.
  intros Hi Hj. unfold edge, intersect. cbn [item items map nth].
  destruct (crossing (snd pt) (Num (py vi)) (Num (py vj))) eqn:E; [ | reflexivity].
  apply crossing_between in E. lra.
Qed.

Lemma edge_above (pt : point) (vi vj : position) :
  py vi < snd pt -> py vj < snd pt ->
  edge intersect pt (Array (Pos vi)) (Array (Pos vj)) = false.
Proof.
  intros Hi Hj. unfold edge, intersect. cbn [item items map nth].
  destruct (crossing (snd pt) (Num (py vi)) (Num (py vj))) eqn:E; [ | reflexivity].
  apply crossing_between in E. lra.
Qed.

Lemma edge_exact (pt : point) (vi vj : position) :
  edge intersect_exact pt (Array (Pos vi)) (Array (Pos vj)) =
  edge intersect pt (Array (Pos vi)) (Array (Pos vj)).
Proof. unfold edge. cbn [item items map nth]. apply intersect_exact_Num. Qed.

Lemma edge_self (pt : point) (v : value) : edge intersect pt v v = false.
Proof. unfold edge, intersect, crossing. rewrite xorb_nilpotent. reflexivity. Qed.

Lemma last_map_ne {A B : Type} (f : A -> B) (l : list A) (d : A) (d' : B) :
  l <> [] -> List.last (map f l) d' = f (List.last l d).
Proof.
  induction l as [ | a l IH]; [congruence | ]. intros _.
  destruct l as [ | b l]; [reflexivity | ].
  change (List.last (map f (b :: l)) d' = f (List.last (b :: l) d)).
  apply IH. discriminate.
Qed.

(** ** Parity over a ring of positions *)

Section RingParity.

Variable test : point -> value -> value -> value -> value -> bool.
Variable pt : point.
Variable Q0 : position -> Prop.

Lemma parity_none (rest : ring) (vj : position) :
  (forall a b, Q0 a -> Q0 b -> edge test pt (Array (Pos a)) (Array (Pos b)) = false) ->
  Q0 vj -> Forall Q0 rest ->
  parity test pt (map Array (map Pos rest)) (Array (Pos vj)) = false.
Proof.
  intros Hedge. revert vj. induction rest as [ | vi rest IH]; intros vj Hj Hrest.
  - reflexivity.
  - apply Forall_cons in Hrest as [Hi Hrest]. cbn [map parity].
    rewrite (Hedge vi vj Hi Hj), (IH vi Hi Hrest). reflexivity.
Qed.

Lemma parity_ext (test' : point -> value -> value -> value -> value -> bool)
    (rest : ring) (vj : position) :
  (forall a b, edge test' pt (Array (Pos a)) (Array (Pos b)) =
               edge test pt (Array (Pos a)) (Array (Pos b))) ->
  parity test' pt (map Array (map Pos rest)) (Array (Pos vj)) =
  parity test pt (map Array (map Pos rest)) (Array (Pos vj)).
Proof.
  intros Hedge. revert vj. induction rest as [ | vi rest IH]; intros vj.
  - reflexivity.
  - cbn [map parity]. rewrite Hedge, IH. reflexivity.
Qed.

(** The loop on a ring of positions. *)
Lemma ring_with_ring (first : position) (rest : ring) :
  ring_with test pt (ring_value (first :: rest)) =
  Ret (parity test pt (map Array (map Pos (first :: rest)))
         (Array (Pos (List.last rest first)))).
Proof.
  unfold ring_value. rewrite ring_with_array. f_equal. f_equal.
  cbn [ring_arr items].
  rewrite (last_map_ne Array _ (Pos first)) by discriminate.
  rewrite (last_map_ne Pos _ first) by discriminate.
  rewrite last_shift. reflexivity.
Qed.

End RingParity.

(** ** Leaves and the bounding box *)

Lemma walk_leaves (a : arr) (bb : bbox) :
  walk a bb = fold_left bbox_step (leaves a) bb.
Proof.
  revert bb. induction a as [p | l IH] using arr_nested_ind; intros bb.
  - reflexivity.
  - cbn [walk leaves]. revert bb.
    induction IH as [ | a l Ha _ IHl]; intros bb; [reflexivity | ].
    cbn [fold_left flat_map]. rewrite fold_left_app, <- Ha. apply IHl.
Qed.

Lemma bbox_left (x : Q) (ps : list position) (bb : bbox) :
  ltb (Fin x) (minX (fold_left bbox_step ps bb)) = true ->
  ltb (Fin x) (minX bb) = true /\ Forall (fun p => x < px p) ps.
Proof.
  revert bb. induction ps as [ | p ps IH]; intros bb H.
  - split; [exact H | constructor].
  - cbn [fold_left] in H. apply IH in H as [H Hps].
    apply min_Fin_lt in H as [H Hp]. split; [exact H | constructor; assumption].
Qed.

Lemma bbox_below (y : Q) (ps : list position) (bb : bbox) :
  ltb (Fin y) (minY (fold_left bbox_step ps bb)) = true ->
  ltb (Fin y) (minY bb) = true /\ Forall (fun p => y < py p) ps.
Proof.
  revert bb. induction ps as [ | p ps IH]; intros bb H.
  - split; [exact H | constructor].
  - cbn [fold_left] in H. apply IH in H as [H Hps].
    apply min_Fin_lt in H as [H Hp]. split; [exact H | constructor; assumption].
Qed.

Lemma bbox_right (x : Q) (ps : list position) (bb : bbox) :
  gtb (Fin x) (maxX (fold_left bbox_step ps bb)) = true ->
  gtb (Fin x) (maxX bb) = true /\ Forall (fun p => px p < x) ps.
Proof.
  revert bb. induction ps as [ | p ps IH]; intros bb H.
  - split; [exact H | constructor].
  - cbn [fold_left] in H. apply IH in H as [H Hps].
    apply max_Fin_gt in H as [H Hp]. split; [exact H | constructor; assumption].
Qed.

Lemma bbox_above (y : Q) (ps : list position) (bb : bbox) :
  gtb (Fin y) (maxY (fold_left bbox_step ps bb)) = true ->
  gtb (Fin y) (maxY bb) = true /\ Forall (fun p => py p < y) ps.
Proof.
  revert bb. induction ps as [ | p ps IH]; intros bb H.
  - split; [exact H | constructor].
  - cbn [fold_left] in H. apply IH in H as [H Hps].
    apply max_Fin_gt in H as [H Hp]. split; [exact H | constructor; assumption].
Qed.

Lemma outside_aside (pt : point) (a : arr) :
  outside pt (walk a bbox_init) = true -> aside pt (leaves a).
Proof.
  rewrite walk_leaves. unfold outside, aside. intros H.
  repeat (apply orb_true_iff in H as [H | H]).
  - left. apply (bbox_left _ _ _ H).
  - right; left. apply (bbox_right _ _ _ H).
  - right; right; left. apply (bbox_below _ _ _ H).
  - right; right; right. apply (bbox_above _ _ _ H).
Qed.

(** ** Shapes *)

Lemma is_ring_inv (a : arr) : is_ring a = true -> exists r, a = ring_arr r.
Proof.
  destruct a as [p | l]; [discriminate | ]. simpl. intros H.
  induction l as [ | a l IH].
  - exists []. reflexivity.
  - simpl in H. apply andb_true_iff in H as [Ha Hl].
    destruct (IH Hl) as [r Hr]. destruct a as [p | ]; [ | discriminate].
    exists (p :: r). unfold ring_arr in *. simpl. congruence.
Qed.

Lemma is_polygon_inv (a : arr) : is_polygon a = true -> exists rs, a = polygon_arr rs.
Proof.
  destruct a as [p | l]; [discriminate | ]. simpl. intros H.
  induction l as [ | a l IH].
  - exists []. reflexivity.
  - simpl in H. apply andb_true_iff in H as [Ha Hl].
    destruct (IH Hl) as [rs Hrs]. destruct (is_ring_inv a Ha) as [r ->].
    exists (r :: rs). unfold polygon_arr in *. simpl. congruence.
Qed.

Lemma is_multipolygon_inv (a : arr) :
  is_multipolygon a = true -> exists ps, a = multipolygon_arr ps.
Proof.
  destruct a as [p | l]; [discriminate | ]. simpl. intros H.
  induction l as [ | a l IH].
  - exists []. reflexivity.
  - simpl in H. apply andb_true_iff in H as [Ha Hl].
    destruct (IH Hl) as [ps Hps]. destruct (is_polygon_inv a Ha) as [rs ->].
    exists (rs :: ps). unfold multipolygon_arr in *. simpl. congruence.
Qed.

Lemma wf_geometry_inv (g : geometry) :
  wf_geometry g = true ->
  (exists rs, g = Polygon rs) \/ (exists ps, g = MultiPolygon ps) \/
  (String.eqb (gtype g) "Polygon" = false /\
   String.eqb (gtype g) "MultiPolygon" = false /\
   exists a, coordinates g = Array a).
Proof.
  destruct g as [k c]. unfold wf_geometry. simpl.
  destruct c as [ | q | a]; try discriminate.
  destruct (String.eqb k "Polygon") eqn:E1.
  - intros H. left. destruct (is_polygon_inv a H) as [rs ->].
    apply String.eqb_eq in E1 as ->. exists rs. reflexivity.
  - destruct (String.eqb k "MultiPolygon") eqn:E2.
    + intros H. right; left. destruct (is_multipolygon_inv a H) as [ps ->].
      apply String.eqb_eq in E2 as ->. exists ps. reflexivity.
    + intros _. right; right. repeat split. exists a. reflexivity.
Qed.

(** ** Polygons and multi-polygons of rings *)

Lemma pointInRing_array (pt : point) (a : arr) :
  exists b, pointInRing pt (Array a) = Ret b.
Proof. unfold pointInRing. rewrite ring_with_array. eexists. reflexivity. Qed.

Lemma pointInRing_ring (pt : point) (r : ring) :
  pointInRing pt (ring_value r) = Ret (inside_ring pt r).
Proof.
  unfold inside_ring. destruct (pointInRing_array pt (ring_arr r)) as [b Hb].
  unfold ring_value. rewrite Hb. reflexivity.
Qed.

Lemma holes_loop_rings (pt : point) (holes : list ring) :
  holes_loop pt (map ring_value holes) =
  Ret (forallb (fun h => negb (inside_ring pt h)) holes).
Proof.
  induction holes as [ | h holes IH]; [reflexivity | ].
  cbn [map holes_loop forallb]. rewrite pointInRing_ring. cbn [bind].
  destruct (inside_ring pt h); [reflexivity | exact IH].
Qed.

Lemma items_polygon (rs : list ring) :
  items (polygon_arr rs) = map ring_value rs.
Proof. unfold polygon_arr. cbn [items]. rewrite map_map. reflexivity. Qed.

Lemma pointInPolygon_rings (pt : point) (rs : list ring) :
  pointInPolygon pt (Array (polygon_arr rs)) = Ret (inside_polygon pt rs).
Proof.
  unfold pointInPolygon. rewrite items_polygon.
  destruct rs as [ | outer holes]; [reflexivity | ].
  cbn [map inside_polygon]. rewrite pointInRing_ring. cbn [bind].
  destruct (inside_ring pt outer); [ | reflexivity].
  cbn [negb andb]. apply holes_loop_rings.
Qed.

Lemma array_some_polygons (pt : point) (ps : list (list ring)) :
  array_some (pointInPolygon pt) (map Array (map polygon_arr ps)) =
  Ret (existsb (inside_polygon pt) ps).
Proof.
  induction ps as [ | rs ps IH]; [reflexivity | ].
  cbn [map array_some existsb]. rewrite pointInPolygon_rings. cbn [bind].
  destruct (inside_polygon pt rs); [reflexivity | exact IH].
Qed.

Lemma pointInGeometry_Polygon (pt : point) (rs : list ring) :
  pointInGeometry pt (Some (Polygon rs)) = Ret (inside_polygon pt rs).
Proof. apply pointInPolygon_rings. Qed.

Lemma pointInGeometry_MultiPolygon (pt : point) (ps : list (list ring)) :
  pointInGeometry pt (Some (MultiPolygon ps)) = Ret (existsb (inside_polygon pt) ps).
Proof. apply array_some_polygons. Qed.

Lemma pointInGeometry_other (pt : point) (g : geometry) :
  String.eqb (gtype g) "Polygon" = false ->
  String.eqb (gtype g) "MultiPolygon" = false ->
  pointInGeometry pt (Some g) = Ret false.
Proof. intros H1 H2. unfold pointInGeometry. rewrite H1, H2. reflexivity. Qed.

(** ** Leaves of polygons *)

Lemma leaves_ring (r : ring) : leaves (ring_arr r) = r.
Proof.
  unfold ring_arr. cbn [leaves]. induction r as [ | p r IH]; [reflexivity | ].
  simpl. f_equal. exact IH.
Qed.

Lemma leaves_polygon_cons (r : ring) (rs : list ring) :
  leaves (polygon_arr (r :: rs)) = r ++ leaves (polygon_arr rs).
Proof.
  unfold polygon_arr. cbn [leaves map flat_map]. rewrite leaves_ring. reflexivity.
Qed.

Lemma leaves_multipolygon_cons (rs : list ring) (ps : list (list ring)) :
  leaves (multipolygon_arr (rs :: ps)) =
  leaves (polygon_arr rs) ++ leaves (multipolygon_arr ps).
Proof. reflexivity. Qed.

(** ** Containment by geometry kind *)

Lemma inside_polygon_spec (pt : point) (rs : list ring) :
  inside_polygon pt rs = true <->
  exists outer holes, rs = outer :: holes /\
    pointInRing pt (ring_value outer) = Ret true /\
    Forall (fun h => pointInRing pt (ring_value h) = Ret false) holes.
Proof.
  split.
  - destruct rs as [ | outer holes]; [discriminate | ].
    cbn [inside_polygon]. intros H. apply andb_true_iff in H as [Ho Hh].
    exists outer, holes. split; [reflexivity | ]. split.
    + rewrite pointInRing_ring, Ho. reflexivity.
    + rewrite forallb_forall in Hh. apply Forall_forall. intros h Hin.
      rewrite pointInRing_ring. f_equal. apply negb_true_iff.
      apply Hh. apply list_elem_of_In, Hin.
  - intros (outer & holes & -> & Ho & Hh). cbn [inside_polygon].
    rewrite pointInRing_ring in Ho. injection Ho as ->. cbn [andb].
    apply forallb_forall. intros h Hin. apply negb_true_iff.
    rewrite Forall_forall in Hh. apply list_elem_of_In in Hin.
    specialize (Hh h Hin). rewrite pointInRing_ring in Hh. congruence.
Qed.

(** C1.  A Polygon contains the point exactly when its first ring does
    and none of the later rings does; a MultiPolygon contains it exactly
    when one of its polygons does, under the same rule; a geometry of any
    other kind, a Polygon without rings and an absent geometry give false,
    without an exception. *)
Theorem pointInGeometry_outer_holes (pt : point) :
  (forall rs : list ring,
      (exists b, pointInGeometry pt (Some (Polygon rs)) = Ret b) /\
      (pointInGeometry pt (Some (Polygon rs)) = Ret true <->
       exists outer holes, rs = outer :: holes /\
         pointInRing pt (ring_value outer) = Ret true /\
         Forall (fun h => pointInRing pt (ring_value h) = Ret false) holes))
  /\ (forall ps : list (list ring),
      (exists b, pointInGeometry pt (Some (MultiPolygon ps)) = Ret b) /\
      (pointInGeometry pt (Some (MultiPolygon ps)) = Ret true <->
       Exists (fun rs => pointInGeometry pt (Some (Polygon rs)) = Ret true) ps))
  /\ (forall g : geometry,
      gtype g <> "Polygon"%string -> gtype g <> "MultiPolygon"%string ->
      pointInGeometry pt (Some g) = Ret false)
  /\ pointInGeometry pt (Some (Polygon [])) = Ret false
  /\ pointInGeometry pt None = Ret false.
Proof.
  repeat split.
  - eexists. apply pointInGeometry_Polygon.
  - rewrite pointInGeometry_Polygon. intros H. apply inside_polygon_spec. congruence.
  - rewrite pointInGeometry_Polygon. intros H. f_equal.
    apply inside_polygon_spec, H.
  - eexists. apply pointInGeometry_MultiPolygon.
  - rewrite pointInGeometry_MultiPolygon. intros H.
    assert (He : existsb (inside_polygon pt) ps = true) by congruence.
    apply existsb_exists in He as (rs & Hin & Hrs).
    apply Exists_exists. exists rs. split; [apply list_elem_of_In, Hin | ].
    rewrite pointInGeometry_Polygon, Hrs. reflexivity.
  - rewrite pointInGeometry_MultiPolygon. intros H. f_equal.
    apply Exists_exists in H as (rs & Hin & Hrs).
    apply existsb_exists. exists rs. split; [apply list_elem_of_In, Hin | ].
    rewrite pointInGeometry_Polygon in Hrs. congruence.
  - intros g H1 H2. apply pointInGeometry_other; apply String.eqb_neq; assumption.
Qed.

Lemma pointInGeometry_outer_holes_witness :
  pointInGeometry (5, 5) (Some (Geometry "Point" (Array (Pos (xy 5 5))))) = Ret false.
Proof.
  apply (proj1 (proj2 (proj2 (pointInGeometry_outer_holes (5, 5)))));
    cbn [gtype]; discriminate.
Defined.

(** ** Closed and unclosed rings *)

(** C7.  For a ring of at least three vertices, appending a copy of the
    first vertex does not change the result of [pointInRing]. *)
Theorem pointInRing_closed (pt : point) (r : ring) (first : position) :
  head r = Some first ->
  (3 <= length r)%nat ->
  pointInRing pt (ring_value (r ++ [first])) = pointInRing pt (ring_value r).
Proof.
  intros Hhead _. destruct r as [ | v rest]; [discriminate | ].
  injection Hhead as ->. unfold pointInRing, ring_value, ring_arr.
  rewrite map_app. cbn [map].
  apply (ring_with_closed intersect pt (Pos first) (map Pos rest)).
  apply edge_self.
Qed.

Lemma pointInRing_closed_witness :
  pointInRing (5, 5) (ring_value ([xy 0 0; xy 0 10; xy 10 10; xy 10 0] ++ [xy 0 0]))
  = pointInRing (5, 5) (ring_value [xy 0 0; xy 0 10; xy 10 10; xy 10 0]).
Proof.
  apply pointInRing_closed; [reflexivity | simpl; lia].
Defined.

(** ** The guarded denominator *)

Lemma pointInRing_exact_ring (pt : point) (r : ring) :
  pointInRing_exact pt (ring_value r) = pointInRing pt (ring_value r).
Proof.
  destruct r as [ | first rest]; [reflexivity | ].
  unfold pointInRing_exact, pointInRing. rewrite !ring_with_ring. f_equal.
  apply parity_ext. intros a b. apply edge_exact.
Qed.

(** C10.  On a horizontal edge the crossing condition is false; when it
    is true the difference [yj - yi] is not zero and the guard returns it
    unchanged, so no division by zero occurs; and [pointInRing] with the
    exact denominator gives the result of [pointInRing] on every point and
    every ring of positions. *)
Theorem pointInRing_guard_unused (pt : point) (r : ring) :
  (forall y yi yj : Q, yj == yi -> crossing y (Num yi) (Num yj) = false)
  /\ (forall y yi yj : Q,
        crossing y (Num yi) (Num yj) = true ->
        ~ yj == yi /\
        truthy (sub (Fin yj) (Fin yi)) = true /\
        JsNum.or (sub (Fin yj) (Fin yi)) epsilon = sub (Fin yj) (Fin yi))
  /\ pointInRing_exact pt (ring_value r) = pointInRing pt (ring_value r).
Proof.
  split; [ | split].
  - intros y yi yj Heq. destruct (crossing y (Num yi) (Num yj)) eqn:E; [ | reflexivity].
    apply crossing_between in E. lra.
  - intros y yi yj H. split; [ | split].
    + apply crossing_between in H. lra.
    + apply crossing_between in H. apply truthy_Fin. lra.
    + apply (crossing_guard y yi yj H).
  - apply pointInRing_exact_ring.
Qed.

Lemma pointInRing_guard_unused_witness :
  crossing 5 (Num 7) (Num 7) = false
  /\ JsNum.or (sub (Fin 10) (Fin 0)) epsilon = sub (Fin 10) (Fin 0).
Proof.
  split.
  - apply (proj1 (pointInRing_guard_unused (5, 5) [xy 0 0; xy 0 10; xy 10 10]) 5 7 7).
    reflexivity.
  - apply (proj1 (proj2 (pointInRing_guard_unused (5, 5) [xy 0 0; xy 0 10; xy 10 10]))
             5 0 10).
    reflexivity.
Defined.

(** ** A returned parcel passed its test *)

Lemma contains_is_area (pt : point) (f : feature) :
  contains pt f = true -> is_area f = true.
Proof.
  unfold contains, is_area, pointInGeometry.
  destruct (feature_geometry f) as [g | ]; [ | discriminate].
  destruct (String.eqb (gtype g) "Polygon"); [reflexivity | ].
  destruct (String.eqb (gtype g) "MultiPolygon"); [reflexivity | discriminate].
Qed.

Lemma find_loop_found (pt : point) (fs : list feature) (f : feature) :
  find_loop pt fs = Ret (Some f) -> f ∈ fs /\ contains pt f = true.
Proof.
  induction fs as [ | a fs IH]; [discriminate | ].
  cbn [find_loop].
  assert (Hnext : find_loop pt fs = Ret (Some f) -> f ∈ a :: fs /\ contains pt f = true).
  { intros H. apply IH in H as [H1 H2]. split; [apply list_elem_of_further, H1 | exact H2]. }
  destruct (feature_geometry a) as [g | ] eqn:Eg; [ | exact Hnext].
  destruct (bboxOfCoords (coordinates g)) as [bb | e]; [ | discriminate]. cbn [bind].
  destruct (outside pt bb); [exact Hnext | ].
  destruct (pointInGeometry pt (Some g)) as [[ | ] | e] eqn:Ep; cbn [bind];
    [ | exact Hnext | discriminate].
  intros H. injection H as <-. split; [apply list_elem_of_here | ].
  unfold contains. rewrite Eg, Ep. reflexivity.
Qed.

Lemma findParcelFeatureAtLatLng_found (st : app) (ll : latlng) (f : feature) :
  findParcelFeatureAtLatLng st ll = Ret (Some f) ->
  f ∈ cadastralFeatures st /\ contains (latLngToPoint ll) f = true.
Proof.
  unfold findParcelFeatureAtLatLng.
  destruct (negb (cadastralLoaded st) || (length (cadastralFeatures st) =? 0)%nat);
    [discriminate | apply find_loop_found].
Qed.

(** A matched parcel always has an area geometry: the second test of
    the handler never rejects it. *)
Lemma findParcelFeatureAtLatLng_is_area (st : app) (ll : latlng) (f : feature) :
  findParcelFeatureAtLatLng st ll = Ret (Some f) -> is_area f = true.
Proof.
  intros H. apply findParcelFeatureAtLatLng_found in H as [_ H].
  apply (contains_is_area _ _ H).
Qed.

(** ** Malformed records *)

Lemma findParcelFeatureAtLatLng_empty (loaded snap : bool) (ll : latlng) :
  findParcelFeatureAtLatLng (App loaded [] snap) ll = Ret None.
Proof. unfold findParcelFeatureAtLatLng. cbn. rewrite orb_true_r. reflexivity. Qed.

Lemma resolve_empty (loaded snap : bool) (l : layer) :
  resolve (App loaded [] snap) l = Ret None.
Proof.
  unfold resolve. destruct (layerCentroidLatLng l); [ | reflexivity].
  rewrite findParcelFeatureAtLatLng_empty. reflexivity.
Qed.

Lemma resolve_no_centroid (st : app) :
  resolve st (Layer None None) = Ret None.
Proof. reflexivity. Qed.

Lemma on_created_snap_off (st : app) (l : layer) :
  snapEnabled st = false -> on_created st l = Ret None.
Proof. intros H. unfold on_created. rewrite H. reflexivity. Qed.

Lemma find_loop_skips_absent_geometry (pt : point) (f : feature) (fs : list feature) :
  feature_geometry f = None -> find_loop pt (f :: fs) = find_loop pt fs.
Proof. intros H. cbn [find_loop]. rewrite H. reflexivity. Qed.

(** On an array whose leaves are positions nothing throws, whatever the
    nesting.  The other arrays, such as [[5]], are not values of the
    model; [bboxOfCoords] throws on them as it does on a scalar. *)
Lemma pointInRing_defined (pt : point) (v : value) :
  defined v = true -> exists b, pointInRing pt v = Ret b.
Proof.
  destruct v as [ | q | a]; [discriminate | | ]; intros _.
  - exists false. reflexivity.
  - apply pointInRing_array.
Qed.

Lemma holes_loop_total (pt : point) (holes : list value) :
  forallb defined holes = true -> exists b, holes_loop pt holes = Ret b.
Proof.
  induction holes as [ | h holes IH]; intros Hd.
  - exists true. reflexivity.
  - cbn [forallb] in Hd. apply andb_true_iff in Hd as [Hh Hd].
    destruct (pointInRing_defined pt h Hh) as [b Hb].
    cbn [holes_loop]. rewrite Hb. cbn [bind].
    destruct b; [exists false; reflexivity | apply IH, Hd].
Qed.

Lemma pointInPolygon_total (pt : point) (v : value) :
  exists b, pointInPolygon pt v = Ret b.
Proof.
  destruct v as [ | q | a]; try (exists false; reflexivity).
  unfold pointInPolygon. pose proof (items_defined a) as Hd.
  destruct (items a) as [ | outer holes]; [exists false; reflexivity | ].
  cbn [forallb] in Hd. apply andb_true_iff in Hd as [Ho Hh].
  destruct (pointInRing_defined pt outer Ho) as [b Hb]. rewrite Hb. cbn [bind].
  destruct b; cbn [negb]; [apply holes_loop_total, Hh | exists false; reflexivity].
Qed.

Lemma array_some_total (pt : point) (l : list value) :
  exists b, array_some (pointInPolygon pt) l = Ret b.
Proof.
  induction l as [ | v l IH]; [exists false; reflexivity | ].
  destruct (pointInPolygon_total pt v) as [b Hb].
  cbn [array_some]. rewrite Hb. cbn [bind].
  destruct b; [exists true; reflexivity | exact IH].
Qed.

Lemma find_loop_total_arrays (pt : point) (fs : list feature) :
  forallb has_array_coordinates fs = true ->
  exists r, find_loop pt fs = Ret r.
Proof.
  induction fs as [ | f fs IH]; intros H; [exists None; reflexivity | ].
  cbn [forallb] in H. apply andb_true_iff in H as [Hf Hfs].
  specialize (IH Hfs). cbn [find_loop]. unfold has_array_coordinates in Hf.
  destruct (feature_geometry f) as [g | ]; [ | exact IH].
  destruct (coordinates g) as [ | q | a] eqn:Ec; try discriminate.
  cbn [bboxOfCoords bind]. destruct (outside pt (walk a bbox_init)); [exact IH | ].
  assert (Hp : exists b, pointInGeometry pt (Some g) = Ret b).
  { unfold pointInGeometry. rewrite Ec.
    destruct (String.eqb (gtype g) "Polygon"); [apply pointInPolygon_total | ].
    destruct (String.eqb (gtype g) "MultiPolygon"); [apply array_some_total | ].
    exists false. reflexivity. }
  destruct Hp as [b Hb]. rewrite Hb. cbn [bind].
  destruct b; [exists (Some f); reflexivity | exact IH].
Qed.

Lemma findParcelFeatureAtLatLng_total_arrays (st : app) (ll : latlng) :
  forallb has_array_coordinates (cadastralFeatures st) = true ->
  exists r, findParcelFeatureAtLatLng st ll = Ret r.
Proof.
  intros H. unfold findParcelFeatureAtLatLng.
  destruct (negb (cadastralLoaded st) || (length (cadastralFeatures st) =? 0)%nat).
  - exists None. reflexivity.
  - apply find_loop_total_arrays, H.
Qed.

Lemma on_created_total_arrays (st : app) (l : layer) :
  forallb has_array_coordinates (cadastralFeatures st) = true ->
  exists r, on_created st l = Ret r.
Proof.
  intros H. unfold on_created, resolve, findParcelFeatureAtLatLng.
  destruct (snapEnabled st); [ | exists None; reflexivity].
  destruct (layerCentroidLatLng l) as [c | ]; [ | exists None; reflexivity].
  destruct (negb (cadastralLoaded st) || (length (cadastralFeatures st) =? 0)%nat).
  - exists None. reflexivity.
  - destruct (find_loop_total_arrays (latLngToPoint c) _ H) as [r Hr].
    rewrite Hr. cbn [bind]. destruct r as [f | ]; [ | exists None; reflexivity].
    destruct (is_area f); eexists; reflexivity.
Qed.

(** C3 fails on the code.  A feature whose geometry has no [coordinates]
    member, or a number in its place, makes [bboxOfCoords] throw: the
    search, and the handler with snapping enabled, raise a [TypeError] for
    every query point instead of skipping the record. *)
Theorem findParcelFeatureAtLatLng_throws_without_coordinates
    (N : Q -> string) (kind : string) (rest : list feature) (ll : latlng) (q : Q) :
  let missing := Feature None None (Some (Geometry kind Undefined)) in
  let scalar := Feature None None (Some (Geometry kind (Num q))) in
  findParcelFeatureAtLatLng (App true (index_features N (missing :: rest)) true) ll
  = Throw TypeError
  /\ findParcelFeatureAtLatLng (App true (index_features N (scalar :: rest)) true) ll
     = Throw TypeError
  /\ resolve (App true (index_features N (missing :: rest)) true)
             (Layer (Some ll) None)
     = Throw TypeError
  /\ on_created (App true (index_features N (missing :: rest)) true)
                (Layer (Some ll) None)
     = Throw TypeError.
Proof.
  intros missing scalar. repeat (split; [reflexivity | ]). reflexivity.
Qed.

(** ** The bounding-box skip and the first match *)

Lemma Forall_last {A : Type} (P : A -> Prop) (l : list A) (d : A) :
  P d -> Forall P l -> P (List.last l d).
Proof.
  intros Hd Hl. revert d Hd.
  induction Hl as [ | a l Ha _ IH]; intros d Hd; [exact Hd | ].
  rewrite last_shift. apply IH, Ha.
Qed.

Lemma find_first {A : Type} (p : A -> bool) (l : list A) (i : nat) (x : A) :
  l !! i = Some x -> p x = true ->
  (forall j y, (j < i)%nat -> l !! j = Some y -> p y = false) ->
  List.find p l = Some x.
Proof.
  revert i. induction l as [ | a l IH]; intros i Hi Hx Hbefore.
  - destruct i; discriminate.
  - destruct i as [ | i]; simpl in *.
    + injection Hi as ->. rewrite Hx. reflexivity.
    + rewrite (Hbefore 0%nat a) by (simpl; auto with lia).
      apply (IH i); auto.
      intros j y Hj Hy. apply (Hbefore (S j) y); [lia | exact Hy].
Qed.

Lemma find_nothing {A : Type} (p : A -> bool) (l : list A) :
  (forall x, x ∈ l -> p x = false) -> List.find p l = None.
Proof.
  induction l as [ | a l IH]; intros H; simpl; [reflexivity | ].
  rewrite (H a) by (apply list_elem_of_here).
  apply IH. intros x Hx. apply H, list_elem_of_further, Hx.
Qed.

(** On an array the containment test returns, whatever the nesting. *)
Lemma pointInGeometry_total_arrays (pt : point) (g : geometry) (a : arr) :
  coordinates g = Array a -> exists b, pointInGeometry pt (Some g) = Ret b.
Proof.
  intros Ec. unfold pointInGeometry. rewrite Ec.
  destruct (String.eqb (gtype g) "Polygon"); [apply pointInPolygon_total | ].
  destruct (String.eqb (gtype g) "MultiPolygon"); [apply array_some_total | ].
  exists false. reflexivity.
Qed.

Lemma matches_contains (pt : point) (f : feature) :
  matches pt f = true -> contains pt f = true.
Proof.
  unfold matches. destruct (feature_geometry f) as [g | ]; [ | discriminate].
  destruct (bboxOfCoords (coordinates g)) as [bb | e]; [ | discriminate].
  intros H. apply andb_true_iff in H as [_ H]. exact H.
Qed.

(** The loop returns the first feature that passes its body. *)
Lemma find_loop_matches (pt : point) (fs : list feature) :
  forallb has_array_coordinates fs = true ->
  find_loop pt fs = Ret (List.find (matches pt) fs).
Proof.
  induction fs as [ | f fs IH]; intros H; [reflexivity | ].
  cbn [forallb] in H. apply andb_true_iff in H as [Hf Hfs].
  specialize (IH Hfs). cbn [find_loop List.find].
  unfold matches at 1, contains at 1. unfold has_array_coordinates in Hf.
  destruct (feature_geometry f) as [g | ]; [ | exact IH].
  destruct (coordinates g) as [ | q | a] eqn:Ec; try discriminate.
  cbn [bboxOfCoords bind]. destruct (outside pt (walk a bbox_init)); [exact IH | ].
  destruct (pointInGeometry_total_arrays pt g a Ec) as [b Hb].
  rewrite Hb. cbn [bind negb andb]. destruct b; [reflexivity | exact IH].
Qed.

(** Without the skip it returns the first feature whose test succeeds. *)
Lemma find_loop_noskip_contains (pt : point) (fs : list feature) :
  forallb has_array_coordinates fs = true ->
  find_loop_noskip pt fs = Ret (List.find (contains pt) fs).
Proof.
  induction fs as [ | f fs IH]; intros H; [reflexivity | ].
  cbn [forallb] in H. apply andb_true_iff in H as [Hf Hfs].
  specialize (IH Hfs). cbn [find_loop_noskip List.find].
  unfold contains at 1. unfold has_array_coordinates in Hf.
  destruct (feature_geometry f) as [g | ]; [ | exact IH].
  destruct (coordinates g) as [ | q | a] eqn:Ec; try discriminate.
  cbn [bboxOfCoords bind].
  destruct (pointInGeometry_total_arrays pt g a Ec) as [b Hb].
  rewrite Hb. cbn [bind]. destruct b; [reflexivity | exact IH].
Qed.

Lemma findParcelFeatureAtLatLng_matches (st : app) (ll : latlng) :
  cadastralLoaded st = true ->
  forallb has_array_coordinates (cadastralFeatures st) = true ->
  findParcelFeatureAtLatLng st ll =
  Ret (List.find (matches (lng ll, lat ll)) (cadastralFeatures st)).
Proof.
  intros Hl Hwf. unfold findParcelFeatureAtLatLng. rewrite Hl. cbn [negb orb].
  destruct (cadastralFeatures st) as [ | f fs] eqn:E; [reflexivity | ].
  cbn [length Nat.eqb]. apply find_loop_matches, Hwf.
Qed.

Lemma findParcelFeatureAtLatLng_noskip_contains (st : app) (ll : latlng) :
  cadastralLoaded st = true ->
  forallb has_array_coordinates (cadastralFeatures st) = true ->
  findParcelFeatureAtLatLng_noskip st ll =
  Ret (List.find (contains (lng ll, lat ll)) (cadastralFeatures st)).
Proof.
  intros Hl Hwf. unfold findParcelFeatureAtLatLng_noskip. rewrite Hl. cbn [negb orb].
  destruct (cadastralFeatures st) as [ | f fs] eqn:E; [reflexivity | ].
  cbn [length Nat.eqb]. apply find_loop_noskip_contains, Hwf.
Qed.

Lemma find_agree {A : Type} (p q : A -> bool) (l : list A) :
  (forall x, x ∈ l -> p x = q x) -> List.find p l = List.find q l.
Proof.
  induction l as [ | a l IH]; intros H; [reflexivity | ].
  cbn [List.find]. rewrite (H a) by apply list_elem_of_here.
  destruct (q a); [reflexivity | ].
  apply IH. intros x Hx. apply H, list_elem_of_further, Hx.
Qed.

(** Below or above every vertex, no edge is crossed. *)
Lemma beyond_ring (pt : point) (r : ring) :
  beyond pt r -> pointInRing pt (ring_value r) = Ret false.
Proof.
  intros H. destruct r as [ | first rest]; [reflexivity | ].
  unfold pointInRing. rewrite ring_with_ring. f_equal.
  cbn [map parity].
  destruct H as [H | H]; apply Forall_cons in H as [H1 H].
  - rewrite (parity_none intersect pt (fun p => snd pt < py p)).
    + rewrite edge_below; [reflexivity | exact H1 | apply Forall_last; assumption].
    + intros a b Ha Hb. apply edge_below; assumption.
    + exact H1.
    + exact H.
  - rewrite (parity_none intersect pt (fun p => py p < snd pt)).
    + rewrite edge_above; [reflexivity | exact H1 | apply Forall_last; assumption].
    + intros a b Ha Hb. apply edge_above; assumption.
    + exact H1.
    + exact H.
Qed.

Lemma beyond_app (pt : point) (l1 l2 : list position) :
  beyond pt (l1 ++ l2) -> beyond pt l1 /\ beyond pt l2.
Proof.
  unfold beyond. intros [H | H]; apply Forall_app in H as [H1 H2]; split; auto.
Qed.

Lemma beyond_polygon (pt : point) (rs : list ring) :
  beyond pt (leaves (polygon_arr rs)) -> inside_polygon pt rs = false.
Proof.
  destruct rs as [ | outer holes]; [reflexivity | ].
  rewrite leaves_polygon_cons. intros H. apply beyond_app in H as [H _].
  cbn [inside_polygon]. unfold inside_ring at 1.
  rewrite (beyond_ring pt outer H). reflexivity.
Qed.

Lemma beyond_multipolygon (pt : point) (ps : list (list ring)) :
  beyond pt (leaves (multipolygon_arr ps)) -> existsb (inside_polygon pt) ps = false.
Proof.
  induction ps as [ | rs ps IH]; [reflexivity | ].
  rewrite leaves_multipolygon_cons. intros H. apply beyond_app in H as [H1 H2].
  cbn [existsb]. rewrite (beyond_polygon pt rs H1). apply IH, H2.
Qed.

Lemma outside_y_beyond (pt : point) (a : arr) :
  outside_y pt (walk a bbox_init) = true -> beyond pt (leaves a).
Proof.
  rewrite walk_leaves. unfold outside_y, beyond. intros H.
  apply orb_true_iff in H as [H | H].
  - left. apply (bbox_below _ _ _ H).
  - right. apply (bbox_above _ _ _ H).
Qed.

Lemma outside_y_not_contained (pt : point) (g : geometry) (bb : bbox) :
  wf_geometry g = true ->
  bboxOfCoords (coordinates g) = Ret bb ->
  outside_y pt bb = true ->
  pointInGeometry pt (Some g) = Ret false.
Proof.
  intros Hwf Hbb Hout.
  destruct (wf_geometry_inv g Hwf) as [[rs ->] | [[ps ->] | (H1 & H2 & _)]].
  - change (Ret (walk (polygon_arr rs) bbox_init) = Ret bb) in Hbb.
    assert (bb = walk (polygon_arr rs) bbox_init) as -> by congruence.
    apply outside_y_beyond in Hout.
    rewrite pointInGeometry_Polygon, (beyond_polygon pt rs Hout). reflexivity.
  - change (Ret (walk (multipolygon_arr ps) bbox_init) = Ret bb) in Hbb.
    assert (bb = walk (multipolygon_arr ps) bbox_init) as -> by congruence.
    apply outside_y_beyond in Hout.
    rewrite pointInGeometry_MultiPolygon, (beyond_multipolygon pt ps Hout).
    reflexivity.
  - apply pointInGeometry_other; assumption.
Qed.

(** C2, as the code has it.  The skip is part of the result.  For a
    well-formed geometry a point below or above the box fails the
    containment test, so the two tests of the skip on the second
    coordinate skip no parcel the test would accept.  On a loaded index
    whose coordinates are arrays the search returns the first parcel whose
    box holds the point [(lng, lat)] and whose test succeeds; without the
    skip it returns the first parcel whose test succeeds; the two results
    are the same whenever no parcel passes the test at a point outside its
    box. *)
Theorem bbox_skip_first_in_box :
  (forall (pt : point) (g : geometry) (bb : bbox),
      wf_geometry g = true ->
      bboxOfCoords (coordinates g) = Ret bb ->
      outside_y pt bb = true ->
      outside pt bb = true /\ pointInGeometry pt (Some g) = Ret false)
  /\ (forall (st : app) (ll : latlng),
      cadastralLoaded st = true ->
      forallb has_array_coordinates (cadastralFeatures st) = true ->
      findParcelFeatureAtLatLng st ll =
        Ret (List.find (matches (lng ll, lat ll)) (cadastralFeatures st))
      /\ findParcelFeatureAtLatLng_noskip st ll =
           Ret (List.find (contains (lng ll, lat ll)) (cadastralFeatures st))
      /\ (forall f, matches (lng ll, lat ll) f = true ->
                    contains (lng ll, lat ll) f = true)
      /\ ((forall f, f ∈ cadastralFeatures st ->
                     contains (lng ll, lat ll) f = true ->
                     matches (lng ll, lat ll) f = true) ->
          findParcelFeatureAtLatLng_noskip st ll = findParcelFeatureAtLatLng st ll)).
Proof.
  split.
  - intros pt g bb Hwf Hbb Hout. split.
    + unfold outside. unfold outside_y in Hout.
      apply orb_true_iff in Hout as [H | H]; rewrite H;
        rewrite ?orb_true_r; reflexivity.
    + apply (outside_y_not_contained pt g bb); assumption.
  - intros st ll Hl Harr.
    pose proof (findParcelFeatureAtLatLng_matches st ll Hl Harr) as Hfind.
    pose proof (findParcelFeatureAtLatLng_noskip_contains st ll Hl Harr) as Hno.
    split; [exact Hfind | split; [exact Hno | split]].
    + intros f. apply matches_contains.
    + intros Hsame. rewrite Hfind, Hno. f_equal. apply find_agree.
      intros f Hin. destruct (contains (lng ll, lat ll) f) eqn:Ec.
      * symmetry. apply Hsame; assumption.
      * destruct (matches (lng ll, lat ll) f) eqn:Em; [ | reflexivity].
        apply matches_contains in Em. congruence.
Qed.

Lemma bbox_skip_first_in_box_witness :
  let sq := [xy 0 0; xy 0 10; xy 10 10; xy 10 0] in
  let A := Feature (Some (PStr "A")) None (Some (Polygon [sq])) in
  let st := App true [A] true in
  pointInGeometry (5, 15) (Some (Polygon [sq])) = Ret false
  /\ findParcelFeatureAtLatLng st (LatLng 5 5) = Ret (Some A)
  /\ findParcelFeatureAtLatLng_noskip st (LatLng 5 5)
     = findParcelFeatureAtLatLng st (LatLng 5 5).
Proof.
  intros sq A st.
  pose proof (proj2 bbox_skip_first_in_box st (LatLng 5 5) eq_refl eq_refl)
    as (Hfind & _ & _ & Hsame).
  split; [ | split].
  - apply (proj1 bbox_skip_first_in_box (5, 15) (Polygon [sq])
             (BBox (Fin 0) (Fin 0) (Fin 10) (Fin 10))); reflexivity.
  - exact Hfind.
  - apply Hsame. intros f Hin _.
    apply elem_of_cons in Hin as [-> | Hin]; [reflexivity | inversion Hin].
Defined.

(** Where the two embeddings part: in exact arithmetic on the same
    numbers, the containment test of the triangle fails at the point
    [2^-53] to the west of it. *)
Lemma exact_test_west_of_A :
  pointInGeometry (exact_point (Binary64.latLngToPoint Binary64.west_of_A))
    (Some (exact_geometry Binary64.triangle)) = Ret false.
Proof. vm_compute. reflexivity. Qed.

(** C2 fails as stated.  On binary64 numbers the point [2^-53] to the
    west of the triangle (0,0), (0,0.2), (3,1), at latitude 0.2, is outside
    the bounding box of the triangle and passes its containment test: the
    crossing abscissa of the edge from (0,0.2) to (3,1) is rounded to
    [-2^-51].  The search returns none, and the parcel once the skip is
    removed.  In exact arithmetic the same happens on a Polygon whose
    outer ring has [[[], []]] for a vertex: [walk] finds no position in
    it, the box is that of (10,5), (10,10), (5,10), and [pointInRing] reads
    the vertex as (0,0), so that the point (3,3) is outside the box and
    passes the test. *)
Lemma bbox_skip_changes_result :
  (let pt := Binary64.latLngToPoint Binary64.west_of_A in
   let st := Binary64.App true [Binary64.parcel_A] true in
   Binary64.outside pt (Binary64.bboxOfCoords Binary64.triangle) = true
   /\ Binary64.pointInGeometry pt (Some Binary64.triangle) = true
   /\ Binary64.findParcelFeatureAtLatLng st Binary64.west_of_A = None
   /\ Binary64.findParcelFeatureAtLatLng_noskip st Binary64.west_of_A
      = Some Binary64.parcel_A)
  /\ (let outer := Arr [Arr [Arr []; Arr []]; Pos (xy 10 5); Pos (xy 10 10);
                        Pos (xy 5 10)] in
      let g := Geometry "Polygon" (Array (Arr [outer])) in
      let f := Feature None None (Some g) in
      let st := App true [f] true in
      bboxOfCoords (coordinates g) = Ret (BBox (Fin 5) (Fin 5) (Fin 10) (Fin 10))
      /\ pointInGeometry (3, 3) (Some g) = Ret true
      /\ findParcelFeatureAtLatLng st (LatLng 3 3) = Ret None
      /\ findParcelFeatureAtLatLng_noskip st (LatLng 3 3) = Ret (Some f)).
Proof.
  split.
  - repeat split; vm_compute; reflexivity.
  - repeat split; vm_compute; reflexivity.
Qed.

(** ** First match *)

Lemma matches_with_pid (pt : point) (f : feature) (pid : string) :
  matches pt (with_pid f pid) = matches pt f.
Proof. reflexivity. Qed.

Lemma arrays_index_features (N : Q -> string) (fs : list feature) :
  forallb has_array_coordinates fs = true ->
  forallb has_array_coordinates (index_features N fs) = true.
Proof.
  intros H. apply forallb_forall. intros f' Hin.
  apply list_elem_of_In, list_elem_of_lookup in Hin as [i Hi].
  rewrite index_features_lookup in Hi.
  destruct (fs !! i) as [f | ] eqn:E; [ | discriminate]. injection Hi as <-.
  rewrite forallb_forall in H. apply (H f).
  apply list_elem_of_In, list_elem_of_lookup. exists i. exact E.
Qed.

(** C5, as the code has it.  The stored parcels are the input features
    in their order, and the search returns the stored copy of the feature
    of least position whose bounding box holds the point [(lng, lat)] and
    whose containment test succeeds, or none when there is no such
    feature. *)
Theorem findParcelFeatureAtLatLng_first_in_box
    (N : Q -> string) (fs : list feature) (snap : bool) (ll : latlng) :
  let st := App true (index_features N fs) snap in
  let pt := (lng ll, lat ll) in
  forallb has_array_coordinates fs = true ->
  (forall i, cadastralFeatures st !! i =
             (fun f => with_pid f (getParcelId N f i)) <$> fs !! i)
  /\ (forall i f,
        fs !! i = Some f ->
        matches pt f = true ->
        (forall j fj, (j < i)%nat -> fs !! j = Some fj -> matches pt fj = false) ->
        findParcelFeatureAtLatLng st ll = Ret (Some (with_pid f (getParcelId N f i))))
  /\ ((forall f, f ∈ fs -> matches pt f = false) ->
      findParcelFeatureAtLatLng st ll = Ret None).
Proof.
  intros st pt Harr.
  assert (Hfind : findParcelFeatureAtLatLng st ll =
                  Ret (List.find (matches pt) (index_features N fs))).
  { apply findParcelFeatureAtLatLng_matches; [reflexivity | ].
    apply arrays_index_features, Harr. }
  split; [ | split].
  - intros i. apply index_features_lookup.
  - intros i f Hi Hf Hbefore. rewrite Hfind. f_equal.
    apply (find_first _ _ i).
    + rewrite index_features_lookup, Hi. reflexivity.
    + exact Hf.
    + intros j y Hj Hy. rewrite index_features_lookup in Hy.
      destruct (fs !! j) as [fj | ] eqn:Ej; [ | discriminate].
      injection Hy as <-. rewrite matches_with_pid. apply (Hbefore j fj Hj Ej).
  - intros Hnone. rewrite Hfind. f_equal. apply find_nothing.
    intros f' Hin. apply list_elem_of_lookup in Hin as [i Hi].
    rewrite index_features_lookup in Hi.
    destruct (fs !! i) as [f | ] eqn:E; [ | discriminate]. injection Hi as <-.
    rewrite matches_with_pid. apply Hnone.
    apply list_elem_of_lookup. exists i. exact E.
Qed.

Lemma findParcelFeatureAtLatLng_first_in_box_witness :
  let sq := [xy 0 0; xy 0 10; xy 10 10; xy 10 0] in
  let big := [xy 0 0; xy 0 20; xy 20 20; xy 20 0] in
  let f1 := Feature (Some (PStr "A")) None (Some (Polygon [sq])) in
  let f2 := Feature (Some (PStr "B")) None (Some (Polygon [big])) in
  let N := fun _ : Q => "0"%string in
  findParcelFeatureAtLatLng (App true (index_features N [f1; f2]) false) (LatLng 5 5)
  = Ret (Some (with_pid f1 "A"))
  /\ findParcelFeatureAtLatLng (App true (index_features N [f1; f2]) false) (LatLng 15 15)
     = Ret (Some (with_pid f2 "B"))
  /\ findParcelFeatureAtLatLng (App true (index_features N [f1; f2]) false) (LatLng 25 25)
     = Ret None.
Proof.
  intros sq big f1 f2 N.
  pose proof (findParcelFeatureAtLatLng_first_in_box N [f1; f2] false (LatLng 5 5)
                eq_refl) as (_ & H5 & _).
  pose proof (findParcelFeatureAtLatLng_first_in_box N [f1; f2] false (LatLng 15 15)
                eq_refl) as (_ & H15 & _).
  pose proof (findParcelFeatureAtLatLng_first_in_box N [f1; f2] false (LatLng 25 25)
                eq_refl) as (_ & _ & H25).
  split; [ | split].
  - apply (H5 0%nat f1); [reflexivity | reflexivity | intros j fj Hj; lia].
  - apply (H15 1%nat f2); [reflexivity | reflexivity | ].
    intros j fj Hj Hfj. assert (j = 0%nat) as -> by lia.
    injection Hfj as <-. reflexivity.
  - apply H25. intros f Hin.
    apply elem_of_cons in Hin as [-> | Hin]; [reflexivity | ].
    apply elem_of_cons in Hin as [-> | Hin]; [reflexivity | inversion Hin].
Defined.

(** C5 fails as stated.  On binary64 numbers, with the triangle A
    before the square B that surrounds it, the point [2^-53] to the west
    of A at latitude 0.2 passes the containment test of A and of B; A is
    skipped by its bounding box and the search returns B, which is not
    the first parcel whose containment test succeeds. *)
Lemma first_match_skips_parcel :
  let pt := Binary64.latLngToPoint Binary64.west_of_A in
  let st := Binary64.App true [Binary64.parcel_A; Binary64.parcel_B] true in
  Binary64.pointInGeometry pt (Binary64.feature_geometry Binary64.parcel_A) = true
  /\ Binary64.pointInGeometry pt (Binary64.feature_geometry Binary64.parcel_B) = true
  /\ Binary64.outside pt (Binary64.bboxOfCoords Binary64.triangle) = true
  /\ Binary64.findParcelFeatureAtLatLng st Binary64.west_of_A = Some Binary64.parcel_B.
Proof. repeat split; vm_compute; reflexivity. Qed.

(** ** Snapping *)

Lemma resolve_find (st : app) (l : layer) (c : latlng) :
  layerCentroidLatLng l = Some c ->
  resolve st l = findParcelFeatureAtLatLng st c.
Proof.
  intros Hc. unfold resolve. rewrite Hc.
  destruct (findParcelFeatureAtLatLng st c) as [[f | ] | e] eqn:E; cbn [bind];
    [ | reflexivity | reflexivity].
  rewrite (findParcelFeatureAtLatLng_is_area st c f E). reflexivity.
Qed.

(** C4, as the code has it.  The representative point of a drawn layer
    is its own coordinate when it has one, else the centre of its bounds.
    A parcel found there replaces the layer when its geometry type is
    Polygon or MultiPolygon, and is dropped otherwise.  On a loaded index
    whose coordinates are arrays the replacement is the first parcel, in
    the order of the index, whose bounding box holds the point
    [(lng, lat)] and whose containment test succeeds there; it has an area
    geometry; when no parcel is such, the layer is kept.  With the single
    square parcel "A" of ring (0,0),(0,10),(10,10),(10,0), the query (5,5)
    returns "A", the query (15,15) returns none and, with snapping enabled,
    a marker at (5,5) resolves to the geometry of "A"; with the rectangle
    of longitudes 0 to 10 and latitudes 20 to 30, a marker at latitude 25
    and longitude 5 is replaced and a marker at latitude 5 and longitude
    25 is kept. *)
Theorem resolve_first_in_box (N : Q -> string) :
  (forall l : layer,
      layerCentroidLatLng l =
      match getLatLng l with
      | Some m => Some m
      | None => getBounds_getCenter l
      end)
  /\ (forall (st : app) (l : layer) (c : latlng) (f : feature),
      layerCentroidLatLng l = Some c ->
      findParcelFeatureAtLatLng st c = Ret (Some f) ->
      (is_area f = true -> resolve st l = Ret (Some f)) /\
      (is_area f = false -> resolve st l = Ret None))
  /\ (forall (st : app) (l : layer) (c : latlng),
      cadastralLoaded st = true ->
      forallb has_array_coordinates (cadastralFeatures st) = true ->
      layerCentroidLatLng l = Some c ->
      resolve st l = Ret (List.find (matches (lng c, lat c)) (cadastralFeatures st))
      /\ (forall f, resolve st l = Ret (Some f) ->
                    is_area f = true /\ matches (lng c, lat c) f = true))
  /\ (let sq := [xy 0 0; xy 0 10; xy 10 10; xy 10 0] in
      let A := Feature (Some (PStr "A")) None (Some (Polygon [sq])) in
      let st := App true (index_features N [A]) true in
      findParcelFeatureAtLatLng st (LatLng 5 5) = Ret (Some (with_pid A "A"))
      /\ findParcelFeatureAtLatLng st (LatLng 15 15) = Ret None
      /\ snapEnabled st = true
      /\ on_created st (Layer (Some (LatLng 5 5)) None) = Ret (Some (with_pid A "A"))
      /\ feature_geometry (with_pid A "A") = Some (Polygon [sq]))
  /\ (let R := Feature (Some (PStr "R")) None
                 (Some (Polygon [[xy 0 20; xy 0 30; xy 10 30; xy 10 20]])) in
      let st := App true (index_features N [R]) true in
      on_created st (Layer (Some (LatLng 25 5)) None) = Ret (Some (with_pid R "R"))
      /\ on_created st (Layer (Some (LatLng 5 25)) None) = Ret None).
Proof.
  split; [ | split; [ | split; [ | split]]].
  - intros l. unfold layerCentroidLatLng.
    destruct (getLatLng l); [reflexivity | ].
    destruct (getBounds_getCenter l); reflexivity.
  - intros st l c f Hc Hfind. unfold resolve.
    rewrite Hc, Hfind. cbn [bind].
    split; intros ->; reflexivity.
  - intros st l c Hl Harr Hc.
    assert (Hr : resolve st l =
                 Ret (List.find (matches (lng c, lat c)) (cadastralFeatures st))).
    { rewrite (resolve_find st l c Hc).
      apply findParcelFeatureAtLatLng_matches; assumption. }
    split; [exact Hr | ].
    intros f Hf. split.
    + rewrite (resolve_find st l c Hc) in Hf.
      apply (findParcelFeatureAtLatLng_is_area st c f Hf).
    + rewrite Hr in Hf. injection Hf as Hf.
      apply find_some in Hf as [_ Hf]. exact Hf.
  - intros sq A st. repeat split; reflexivity.
  - intros R st. split; reflexivity.
Qed.

Lemma resolve_first_in_box_witness :
  let R := Feature (Some (PStr "R")) None
             (Some (Polygon [[xy 0 20; xy 0 30; xy 10 30; xy 10 20]])) in
  let st := App true [R] true in
  resolve st (Layer None (Some (LatLng 25 5))) = Ret (Some R)
  /\ resolve st (Layer (Some (LatLng 25 5)) None)
     = Ret (List.find (matches (5, 25)) [R])
  /\ resolve st (Layer (Some (LatLng 5 25)) None)
     = Ret (List.find (matches (25, 5)) [R]).
Proof.
  intros R st. split; [ | split].
  - apply (proj1 (proj2 (resolve_first_in_box (fun _ => "0"%string)))
             st (Layer None (Some (LatLng 25 5))) (LatLng 25 5) R);
      reflexivity.
  - apply (proj1 (proj2 (proj2 (resolve_first_in_box (fun _ => "0"%string))))
             st (Layer (Some (LatLng 25 5)) None) (LatLng 25 5));
      reflexivity.
  - apply (proj1 (proj2 (proj2 (resolve_first_in_box (fun _ => "0"%string))))
             st (Layer (Some (LatLng 5 25)) None) (LatLng 5 25));
      reflexivity.
Defined.

(** C4 fails as stated.  On binary64 numbers, a marker [2^-53] to the
    west of the triangular parcel A, at latitude 0.2, has a representative
    point that passes the containment test of A, a Polygon; the search
    skips A by its bounding box and the layer is kept.  A marker at
    latitude 1 and longitude [third] lies inside the parcel Q, a Polygon:
    it is in the box, and in exact arithmetic on the same numbers the
    containment test succeeds, the longitude being less than 1/3; on
    binary64 numbers the crossing abscissa of the east side is rounded to
    [third], the test fails and the layer is kept. *)
Lemma resolve_keeps_layer_inside_parcel :
  (let marker := Binary64.Layer (Some Binary64.west_of_A) None in
   let st := Binary64.App true [Binary64.parcel_A] true in
   Binary64.layerCentroidLatLng marker = Some Binary64.west_of_A
   /\ Binary64.pointInGeometry (Binary64.latLngToPoint Binary64.west_of_A)
        (Binary64.feature_geometry Binary64.parcel_A) = true
   /\ Binary64.on_created st marker = None)
  /\ (let marker := Binary64.Layer (Some Binary64.inside_Q) None in
      let st := Binary64.App true [Binary64.parcel_Q] true in
      let pt := Binary64.latLngToPoint Binary64.inside_Q in
      Binary64.layerCentroidLatLng marker = Some Binary64.inside_Q
      /\ Binary64.to_Q (fst pt) < 1 # 3
      /\ pointInGeometry (exact_point pt)
           (Some (exact_geometry Binary64.quadrilateral)) = Ret true
      /\ Binary64.outside pt (Binary64.bboxOfCoords Binary64.quadrilateral) = false
      /\ Binary64.pointInGeometry pt (Some Binary64.quadrilateral) = false
      /\ Binary64.on_created st marker = None).
Proof.
  split.
  - repeat split; vm_compute; reflexivity.
  - repeat split; vm_compute; reflexivity.
Qed.

(* ===================================================================== *)
(** * Further properties of the code *)
(* ===================================================================== *)

(** ** The bounding box *)

Lemma Qltb_irrefl (a : Q) : Qltb a a = false.
Proof. apply Qltb_ge. lra. Qed.

(** X1.  Every position of a coordinates array lies within the box that
    [bboxOfCoords] returns for it: the bounding-box test of the search
    rejects none of them. *)
Theorem bboxOfCoords_covers (a : arr) (p : position) :
  p ∈ leaves a ->
  exists bb, bboxOfCoords (Array a) = Ret bb /\ outside (px p, py p) bb = false.
Proof.
  intros Hp. exists (walk a bbox_init). split; [reflexivity | ].
  destruct (outside (px p, py p) (walk a bbox_init)) eqn:E; [ | reflexivity].
  exfalso. apply outside_aside in E.
  destruct E as [H | [H | [H | H]]]; rewrite Forall_forall in H;
    specialize (H p Hp); cbn [fst snd] in H; lra.
Qed.

Lemma bboxOfCoords_covers_witness :
  exists bb, bboxOfCoords (Array (polygon_arr [[xy 0 0; xy 0 10; xy 10 10]])) = Ret bb
             /\ outside (px (xy 0 10), py (xy 0 10)) bb = false.
Proof.
  apply bboxOfCoords_covers. apply list_elem_of_In. vm_compute. auto.
Defined.

Lemma fold_minX (ps : list position) (bb : bbox) (a : Q) :
  minX bb = Fin a ->
  minX (fold_left bbox_step ps bb) = Fin a \/
  exists p, p ∈ ps /\ minX (fold_left bbox_step ps bb) = Fin (px p).
Proof.
  revert bb a. induction ps as [ | p ps IH]; intros bb a Hbb; [left; exact Hbb | ].
  cbn [fold_left].
  assert (Hstep : minX (bbox_step bb p) = Fin a \/ minX (bbox_step bb p) = Fin (px p)).
  { unfold bbox_step, bbox_add. cbn [minX]. rewrite Hbb. unfold JsNum.min.
    destruct (ltb (Fin (px p)) (Fin a)); auto. }
  destruct Hstep as [H | H].
  - destruct (IH _ _ H) as [H' | (q & Hq & H')]; [left; exact H' | right].
    exists q. split; [apply list_elem_of_further, Hq | exact H'].
  - right. destruct (IH _ _ H) as [H' | (q & Hq & H')].
    + exists p. split; [apply list_elem_of_here | exact H'].
    + exists q. split; [apply list_elem_of_further, Hq | exact H'].
Qed.

Lemma fold_minY (ps : list position) (bb : bbox) (a : Q) :
  minY bb = Fin a ->
  minY (fold_left bbox_step ps bb) = Fin a \/
  exists p, p ∈ ps /\ minY (fold_left bbox_step ps bb) = Fin (py p).
Proof.
  revert bb a. induction ps as [ | p ps IH]; intros bb a Hbb; [left; exact Hbb | ].
  cbn [fold_left].
  assert (Hstep : minY (bbox_step bb p) = Fin a \/ minY (bbox_step bb p) = Fin (py p)).
  { unfold bbox_step, bbox_add. cbn [minY]. rewrite Hbb. unfold JsNum.min.
    destruct (ltb (Fin (py p)) (Fin a)); auto. }
  destruct Hstep as [H | H].
  - destruct (IH _ _ H) as [H' | (q & Hq & H')]; [left; exact H' | right].
    exists q. split; [apply list_elem_of_further, Hq | exact H'].
  - right. destruct (IH _ _ H) as [H' | (q & Hq & H')].
    + exists p. split; [apply list_elem_of_here | exact H'].
    + exists q. split; [apply list_elem_of_further, Hq | exact H'].
Qed.

Lemma fold_maxX (ps : list position) (bb : bbox) (a : Q) :
  maxX bb = Fin a ->
  maxX (fold_left bbox_step ps bb) = Fin a \/
  exists p, p ∈ ps /\ maxX (fold_left bbox_step ps bb) = Fin (px p).
Proof.
  revert bb a. induction ps as [ | p ps IH]; intros bb a Hbb; [left; exact Hbb | ].
  cbn [fold_left].
  assert (Hstep : maxX (bbox_step bb p) = Fin a \/ maxX (bbox_step bb p) = Fin (px p)).
  { unfold bbox_step, bbox_add. cbn [maxX]. rewrite Hbb. unfold JsNum.max.
    destruct (ltb (Fin a) (Fin (px p))); auto. }
  destruct Hstep as [H | H].
  - destruct (IH _ _ H) as [H' | (q & Hq & H')]; [left; exact H' | right].
    exists q. split; [apply list_elem_of_further, Hq | exact H'].
  - right. destruct (IH _ _ H) as [H' | (q & Hq & H')].
    + exists p. split; [apply list_elem_of_here | exact H'].
    + exists q. split; [apply list_elem_of_further, Hq | exact H'].
Qed.

Lemma fold_maxY (ps : list position) (bb : bbox) (a : Q) :
  maxY bb = Fin a ->
  maxY (fold_left bbox_step ps bb) = Fin a \/
  exists p, p ∈ ps /\ maxY (fold_left bbox_step ps bb) = Fin (py p).
Proof.
  revert bb a. induction ps as [ | p ps IH]; intros bb a Hbb; [left; exact Hbb | ].
  cbn [fold_left].
  assert (Hstep : maxY (bbox_step bb p) = Fin a \/ maxY (bbox_step bb p) = Fin (py p)).
  { unfold bbox_step, bbox_add. cbn [maxY]. rewrite Hbb. unfold JsNum.max.
    destruct (ltb (Fin a) (Fin (py p))); auto. }
  destruct Hstep as [H | H].
  - destruct (IH _ _ H) as [H' | (q & Hq & H')]; [left; exact H' | right].
    exists q. split; [apply list_elem_of_further, Hq | exact H'].
  - right. destruct (IH _ _ H) as [H' | (q & Hq & H')].
    + exists p. split; [apply list_elem_of_here | exact H'].
    + exists q. split; [apply list_elem_of_further, Hq | exact H'].
Qed.

(** X2.  The box is tight: when the coordinates hold at least one
    position, each of the four bounds is a coordinate of some position of
    the array. *)
Theorem bboxOfCoords_tight (a : arr) :
  leaves a <> [] ->
  exists p1 p2 p3 p4,
    p1 ∈ leaves a /\ p2 ∈ leaves a /\ p3 ∈ leaves a /\ p4 ∈ leaves a /\
    bboxOfCoords (Array a) =
    Ret (BBox (Fin (px p1)) (Fin (py p2)) (Fin (px p3)) (Fin (py p4))).
Proof.
  intros Hne. cbn [bboxOfCoords]. rewrite walk_leaves.
  destruct (leaves a) as [ | p ps]; [congruence | ]. cbn [fold_left].
  set (b0 := bbox_step bbox_init p).
  assert (H1 : exists q, q ∈ p :: ps /\ minX (fold_left bbox_step ps b0) = Fin (px q)).
  { destruct (fold_minX ps b0 (px p) eq_refl) as [H | (q & Hq & H)].
    - exists p. split; [apply list_elem_of_here | exact H].
    - exists q. split; [apply list_elem_of_further, Hq | exact H]. }
  assert (H2 : exists q, q ∈ p :: ps /\ minY (fold_left bbox_step ps b0) = Fin (py q)).
  { destruct (fold_minY ps b0 (py p) eq_refl) as [H | (q & Hq & H)].
    - exists p. split; [apply list_elem_of_here | exact H].
    - exists q. split; [apply list_elem_of_further, Hq | exact H]. }
  assert (H3 : exists q, q ∈ p :: ps /\ maxX (fold_left bbox_step ps b0) = Fin (px q)).
  { destruct (fold_maxX ps b0 (px p) eq_refl) as [H | (q & Hq & H)].
    - exists p. split; [apply list_elem_of_here | exact H].
    - exists q. split; [apply list_elem_of_further, Hq | exact H]. }
  assert (H4 : exists q, q ∈ p :: ps /\ maxY (fold_left bbox_step ps b0) = Fin (py q)).
  { destruct (fold_maxY ps b0 (py p) eq_refl) as [H | (q & Hq & H)].
    - exists p. split; [apply list_elem_of_here | exact H].
    - exists q. split; [apply list_elem_of_further, Hq | exact H]. }
  destruct H1 as (p1 & Hp1 & E1), H2 as (p2 & Hp2 & E2),
           H3 as (p3 & Hp3 & E3), H4 as (p4 & Hp4 & E4).
  exists p1, p2, p3, p4. repeat (split; [assumption | ]).
  f_equal. destruct (fold_left bbox_step ps b0) as [a1 a2 a3 a4].
  cbn [minX minY maxX maxY] in *. congruence.
Qed.

Lemma bboxOfCoords_tight_witness :
  exists p1 p2 p3 p4,
    p1 ∈ leaves (polygon_arr [[xy 0 3; xy 2 10; xy 10 5]]) /\
    p2 ∈ leaves (polygon_arr [[xy 0 3; xy 2 10; xy 10 5]]) /\
    p3 ∈ leaves (polygon_arr [[xy 0 3; xy 2 10; xy 10 5]]) /\
    p4 ∈ leaves (polygon_arr [[xy 0 3; xy 2 10; xy 10 5]]) /\
    bboxOfCoords (Array (polygon_arr [[xy 0 3; xy 2 10; xy 10 5]])) =
    Ret (BBox (Fin (px p1)) (Fin (py p2)) (Fin (px p3)) (Fin (py p4))).
Proof.
  apply bboxOfCoords_tight. vm_compute. discriminate.
Defined.

(** X3.  Coordinates without any position give the inverted box
    [[Infinity, Infinity, -Infinity, -Infinity]]; every query point is
    outside it, so the search skips the feature whatever its type. *)
Theorem bboxOfCoords_no_position (a : arr) (k : string) (f : feature)
    (fs : list feature) (pt : point) :
  leaves a = [] ->
  feature_geometry f = Some (Geometry k (Array a)) ->
  bboxOfCoords (Array a) = Ret (BBox PosInf PosInf NegInf NegInf)
  /\ outside pt (BBox PosInf PosInf NegInf NegInf) = true
  /\ find_loop pt (f :: fs) = find_loop pt fs.
Proof.
  intros Hl Hg.
  assert (Hbb : bboxOfCoords (Array a) = Ret bbox_init).
  { cbn [bboxOfCoords]. rewrite walk_leaves, Hl. reflexivity. }
  split; [exact Hbb | ]. split; [reflexivity | ].
  cbn [find_loop]. rewrite Hg. cbn [coordinates]. rewrite Hbb. reflexivity.
Qed.

Lemma bboxOfCoords_no_position_witness :
  find_loop (5, 5) [Feature None None (Some (Polygon [[]; []]))] = find_loop (5, 5) [].
Proof.
  apply (bboxOfCoords_no_position (polygon_arr [[]; []]) "Polygon"
           (Feature None None (Some (Polygon [[]; []]))) [] (5, 5));
    reflexivity.
Defined.

(** ** Invariances of the ring test *)

Section Rotation.

Variable test : point -> value -> value -> value -> value -> bool.
Variable pt : point.

Lemma ring_with_rotate1 (first : arr) (rest : list arr) :
  ring_with test pt (Array (Arr (rest ++ [first]))) =
  ring_with test pt (Array (Arr (first :: rest))).
Proof.
  rewrite !ring_with_array. f_equal. cbn [items]. rewrite map_app.
  change (map Array [first]) with [Array first].
  change (map Array (first :: rest)) with (Array first :: map Array rest).
  set (vs := map Array rest). set (v0 := Array first).
  rewrite last_last, parity_app. cbn [parity].
  rewrite last_shift. apply xorb_comm.
Qed.

Lemma ring_with_rotate (l1 l2 : list arr) :
  ring_with test pt (Array (Arr (l2 ++ l1))) =
  ring_with test pt (Array (Arr (l1 ++ l2))).
Proof.
  revert l2. induction l1 as [ | a l1 IH]; intros l2.
  - rewrite app_nil_r. reflexivity.
  - change ((a :: l1) ++ l2) with (a :: (l1 ++ l2)).
    rewrite <- ring_with_rotate1, <- app_assoc, <- IH, <- app_assoc.
    reflexivity.
Qed.

End Rotation.

(** X4.  The ring test does not depend on the vertex the ring starts
    from: a cyclic shift of the vertices gives the same result. *)
Theorem pointInRing_rotate (pt : point) (r1 r2 : ring) :
  pointInRing pt (ring_value (r2 ++ r1)) = pointInRing pt (ring_value (r1 ++ r2)).
Proof.
  unfold pointInRing, ring_value, ring_arr. rewrite !map_app.
  apply ring_with_rotate.
Qed.

(** The edge test between two positions, in terms of rationals. *)
Lemma edge_positions (pt : point) (vi vj : position) :
  edge intersect pt (Array (Pos vi)) (Array (Pos vj)) = true <->
  (py vi <= snd pt < py vj \/ py vj <= snd pt < py vi) /\
  fst pt < (px vj - px vi) * (snd pt - py vi) / (py vj - py vi) + px vi.
Proof.
  unfold edge, intersect. cbn [item items map nth].
  destruct (crossing (snd pt) (Num (py vi)) (Num (py vj))) eqn:E.
  - destruct (crossing_x_Num (snd pt) (px vi) (py vi) (px vj) (py vj) E) as [-> _].
    rewrite ltb_Fin, Qltb_lt. apply crossing_between in E. tauto.
  - split; [discriminate | ]. intros [H _]. apply crossing_between in H. congruence.
Qed.

Lemma bool_ext (a b : bool) : (a = true <-> b = true) -> a = b.
Proof. destruct a, b; intros [H1 H2]; auto; symmetry; auto. Qed.

(** ** A rectangular parcel *)

(** The two vertical edges of a rectangle have [xj - xi = 0], so their
    crossing abscissa is the abscissa of the edge whenever [y - yi] is
    finite; the bounds on the second coordinates keep it so in binary64. *)
Lemma rectangle_test (x0 y0 x1 y1 x y : Q) :
  no_overflow y0 = true -> no_overflow y1 = true -> no_overflow y = true ->
  x0 < x1 -> y0 < y1 ->
  pointInRing (x, y) (ring_value (rectangle x0 y0 x1 y1)) =
  Ret (Qleb x0 x && Qltb x x1 && Qleb y0 y && Qltb y y1).
Proof.
  intros _ _ _ Hx Hy. unfold pointInRing, rectangle. rewrite ring_with_ring. f_equal.
  cbn [map parity List.last].
  assert (E1 : edge intersect (x, y) (Array (Pos (xy x0 y0))) (Array (Pos (xy x1 y0)))
               = false).
  { apply not_true_is_false. intros E.
    apply edge_positions in E. cbn [px py xy fst snd] in E. lra. }
  assert (E3 : edge intersect (x, y) (Array (Pos (xy x1 y1))) (Array (Pos (xy x0 y1)))
               = false).
  { apply not_true_is_false. intros E.
    apply edge_positions in E. cbn [px py xy fst snd] in E. lra. }
  assert (E2 : edge intersect (x, y) (Array (Pos (xy x0 y1))) (Array (Pos (xy x0 y0)))
               = Qleb y0 y && Qltb y y1 && Qltb x x0).
  { apply bool_ext. rewrite edge_positions. cbn [px py xy fst snd].
    rewrite !andb_true_iff. unfold Qleb. rewrite negb_true_iff, Qltb_ge, !Qltb_lt.
    assert (Hq : (x0 - x0) * (y - y1) / (y0 - y1) + x0 == x0) by (field; lra).
    rewrite Hq. split; [intros [[H | H] Hl]; lra | intros [[H1 H2] H3]; lra]. }
  assert (E4 : edge intersect (x, y) (Array (Pos (xy x1 y0))) (Array (Pos (xy x1 y1)))
               = Qleb y0 y && Qltb y y1 && Qltb x x1).
  { apply bool_ext. rewrite edge_positions. cbn [px py xy fst snd].
    rewrite !andb_true_iff. unfold Qleb. rewrite negb_true_iff, Qltb_ge, !Qltb_lt.
    assert (Hq : (x1 - x1) * (y - y0) / (y1 - y0) + x1 == x1) by (field; lra).
    rewrite Hq. split; [intros [[H | H] Hl]; lra | intros [[H1 H2] H3]; lra]. }
  rewrite E1, E2, E3, E4. unfold Qleb.
  destruct (Qltb y y0) eqn:A, (Qltb y y1) eqn:B, (Qltb x x0) eqn:C, (Qltb x x1) eqn:D;
    try reflexivity; exfalso;
    repeat match goal with
           | H : Qltb _ _ = true |- _ => apply Qltb_lt in H
           | H : Qltb _ _ = false |- _ => apply Qltb_ge in H
           end; lra.
Qed.

(** X7.  On an axis-aligned rectangle whose second coordinates, like
    that of the point, are at most [2^1022] in magnitude, the test is the
    half-open rectangle: the left and bottom sides belong to it, the right
    and top sides do not. *)
Theorem pointInRing_rectangle (x0 y0 x1 y1 x y : Q) :
  no_overflow y0 = true -> no_overflow y1 = true -> no_overflow y = true ->
  x0 < x1 -> y0 < y1 ->
  pointInRing (x, y) (ring_value [xy x0 y0; xy x0 y1; xy x1 y1; xy x1 y0]) =
  Ret (Qleb x0 x && Qltb x x1 && Qleb y0 y && Qltb y y1).
Proof. apply rectangle_test. Qed.

Lemma pointInRing_rectangle_witness :
  pointInRing (0, 5) (ring_value [xy 0 0; xy 0 10; xy 10 10; xy 10 0]) =
  Ret (Qleb 0 0 && Qltb 0 10 && Qleb 0 5 && Qltb 5 10).
Proof. apply pointInRing_rectangle; reflexivity. Defined.

(** ** What the search returns *)

Lemma find_loop_sound (pt : point) (fs : list feature) (f : feature) :
  find_loop pt fs = Ret (Some f) ->
  f ∈ fs /\
  exists g bb,
    feature_geometry f = Some g /\
    bboxOfCoords (coordinates g) = Ret bb /\
    outside pt bb = false /\
    pointInGeometry pt (Some g) = Ret true.
Proof.
  induction fs as [ | a fs IH]; [discriminate | ].
  cbn [find_loop].
  assert (Hnext : find_loop pt fs = Ret (Some f) ->
                  f ∈ a :: fs /\
                  exists g bb,
                    feature_geometry f = Some g /\
                    bboxOfCoords (coordinates g) = Ret bb /\
                    outside pt bb = false /\
                    pointInGeometry pt (Some g) = Ret true).
  { intros H. apply IH in H as [H1 H2]. split; [apply list_elem_of_further, H1 | exact H2]. }
  destruct (feature_geometry a) as [g | ] eqn:Eg; [ | exact Hnext].
  destruct (bboxOfCoords (coordinates g)) as [bb | e] eqn:Eb; [ | discriminate].
  cbn [bind]. destruct (outside pt bb) eqn:Eo; [exact Hnext | ].
  destruct (pointInGeometry pt (Some g)) as [[ | ] | e] eqn:Ep; cbn [bind];
    [ | exact Hnext | discriminate].
  intros H. injection H as <-. split; [apply list_elem_of_here | ].
  exists g, bb. auto.
Qed.

(** X9.  The search never returns a parcel that it should not: a result
    is a stored feature of a loaded index, its geometry is a Polygon or a
    MultiPolygon whose coordinates are an array, the query point is within
    its bounding box and passes its containment test. *)
Theorem findParcelFeatureAtLatLng_sound (st : app) (ll : latlng) (f : feature) :
  findParcelFeatureAtLatLng st ll = Ret (Some f) ->
  cadastralLoaded st = true /\
  f ∈ cadastralFeatures st /\
  is_area f = true /\
  exists g a,
    feature_geometry f = Some g /\
    coordinates g = Array a /\
    outside (latLngToPoint ll) (walk a bbox_init) = false /\
    pointInGeometry (latLngToPoint ll) (Some g) = Ret true.
Proof.
  intros H. pose proof (findParcelFeatureAtLatLng_is_area st ll f H) as Harea.
  unfold findParcelFeatureAtLatLng in H.
  destruct (cadastralLoaded st); [ | discriminate]. cbn [negb orb] in H.
  destruct (length (cadastralFeatures st) =? 0)%nat; [discriminate | ].
  apply find_loop_sound in H as (Hin & g & bb & Hg & Hbb & Hout & Hp).
  repeat (split; [assumption || reflexivity | ]).
  destruct (coordinates g) as [ | q | a] eqn:Ec; try discriminate.
  exists g, a. cbn [bboxOfCoords] in Hbb. injection Hbb as <-. auto.
Qed.

Lemma findParcelFeatureAtLatLng_sound_witness :
  let A := Feature (Some (PStr "A")) None
             (Some (Polygon [[xy 0 0; xy 0 10; xy 10 10; xy 10 0]])) in
  cadastralLoaded (App true [A] false) = true /\
  A ∈ cadastralFeatures (App true [A] false) /\
  is_area A = true /\
  exists g a,
    feature_geometry A = Some g /\
    coordinates g = Array a /\
    outside (latLngToPoint (LatLng 5 5)) (walk a bbox_init) = false /\
    pointInGeometry (latLngToPoint (LatLng 5 5)) (Some g) = Ret true.
Proof.
  intros A. apply (findParcelFeatureAtLatLng_sound (App true [A] false) (LatLng 5 5) A).
  reflexivity.
Defined.

(** X10.  The handler snaps only when the toggle is on, the layer has a
    representative point and the parcel taken is a stored feature with an
    area geometry that contains this point. *)
Theorem on_created_sound (st : app) (l : layer) (f : feature) :
  on_created st l = Ret (Some f) ->
  snapEnabled st = true /\
  exists c,
    layerCentroidLatLng l = Some c /\
    f ∈ cadastralFeatures st /\
    is_area f = true /\
    contains (latLngToPoint c) f = true.
Proof.
  unfold on_created, resolve.
  destruct (snapEnabled st); [ | discriminate].
  destruct (layerCentroidLatLng l) as [c | ]; [ | discriminate].
  destruct (findParcelFeatureAtLatLng st c) as [[f' | ] | e] eqn:E; cbn [bind];
    try discriminate.
  destruct (is_area f') eqn:Ea; [ | discriminate].
  intros H. injection H as ->. split; [reflexivity | ].
  exists c. apply findParcelFeatureAtLatLng_found in E as [Hin Hc]. auto.
Qed.

Lemma on_created_sound_witness :
  let A := Feature (Some (PStr "A")) None
             (Some (Polygon [[xy 0 0; xy 0 10; xy 10 10; xy 10 0]])) in
  snapEnabled (App true [A] true) = true /\
  exists c,
    layerCentroidLatLng (Layer (Some (LatLng 5 5)) None) = Some c /\
    A ∈ cadastralFeatures (App true [A] true) /\
    is_area A = true /\
    contains (latLngToPoint c) A = true.
Proof.
  intros A.
  apply (on_created_sound (App true [A] true) (Layer (Some (LatLng 5 5)) None) A).
  reflexivity.
Defined.

(** ** Records after the first match, and malformed records *)

Lemma find_loop_app (pt : point) (fs1 fs2 : list feature) :
  forallb has_array_coordinates fs1 = true ->
  find_loop pt (fs1 ++ fs2) =
  match List.find (matches pt) fs1 with
  | Some f => Ret (Some f)
  | None => find_loop pt fs2
  end.
Proof.
  induction fs1 as [ | a fs1 IH]; intros H; [reflexivity | ].
  cbn [forallb] in H. apply andb_true_iff in H as [Ha Hfs].
  specialize (IH Hfs).
  change ((a :: fs1) ++ fs2) with (a :: (fs1 ++ fs2)).
  cbn [find_loop List.find].
  unfold matches at 1, contains at 1. unfold has_array_coordinates in Ha.
  destruct (feature_geometry a) as [g | ]; [ | exact IH].
  destruct (coordinates g) as [ | q | c] eqn:Ec; try discriminate.
  cbn [bboxOfCoords bind]. destruct (outside pt (walk c bbox_init)); [exact IH | ].
  destruct (pointInGeometry_total_arrays pt g c Ec) as [b Hb].
  rewrite Hb. cbn [bind negb andb]. destruct b; [reflexivity | exact IH].
Qed.

(** X11.  A record without a [coordinates] array matters only when the
    loop reaches it: when a parcel before it has the point in its box and
    passes the containment test, the search returns the first such parcel
    whatever follows; when no parcel before it does, the search throws. *)
Theorem find_loop_malformed_reached
    (pt : point) (fs1 fs2 : list feature) (bad : feature) (g : geometry) :
  forallb has_array_coordinates fs1 = true ->
  feature_geometry bad = Some g ->
  (forall a, coordinates g <> Array a) ->
  (forall f, List.find (matches pt) fs1 = Some f ->
             find_loop pt (fs1 ++ bad :: fs2) = Ret (Some f))
  /\ (List.find (matches pt) fs1 = None ->
      find_loop pt (fs1 ++ bad :: fs2) = Throw TypeError).
Proof.
  intros Harr Hg Hc. split.
  - intros f Hf. rewrite find_loop_app, Hf by assumption. reflexivity.
  - intros Hnone. rewrite find_loop_app, Hnone by assumption.
    cbn [find_loop]. rewrite Hg.
    destruct (coordinates g) as [ | q | a]; [reflexivity | reflexivity | ].
    exfalso. apply (Hc a). reflexivity.
Qed.

Lemma find_loop_malformed_reached_witness :
  let A := Feature (Some (PStr "A")) None
             (Some (Polygon [[xy 0 0; xy 0 10; xy 10 10; xy 10 0]])) in
  let bad := Feature None None (Some (Geometry "GeometryCollection" Undefined)) in
  find_loop (5, 5) ([A] ++ bad :: []) = Ret (Some A)
  /\ find_loop (15, 15) ([A] ++ bad :: []) = Throw TypeError.
Proof.
  intros A bad.
  pose proof (find_loop_malformed_reached (5, 5) [A] [] bad
                (Geometry "GeometryCollection" Undefined) eq_refl eq_refl) as H5.
  pose proof (find_loop_malformed_reached (15, 15) [A] [] bad
                (Geometry "GeometryCollection" Undefined) eq_refl eq_refl) as H15.
  split.
  - apply H5; [intros a; discriminate | reflexivity].
  - apply H15; [intros a; discriminate | reflexivity].
Defined.

(** ** Order of holes and of member polygons *)

Lemma forallb_Permutation {A : Type} (p : A -> bool) (l l' : list A) :
  l ≡ₚ l' -> forallb p l = forallb p l'.
Proof.
  induction 1 as [ | x l l' _ IH | x y l | l l1 l2 _ IH1 _ IH2]; cbn [forallb].
  - reflexivity.
  - rewrite IH. reflexivity.
  - destruct (p x), (p y); reflexivity.
  - congruence.
Qed.

Lemma existsb_Permutation {A : Type} (p : A -> bool) (l l' : list A) :
  l ≡ₚ l' -> existsb p l = existsb p l'.
Proof.
  induction 1 as [ | x l l' _ IH | x y l | l l1 l2 _ IH1 _ IH2]; cbn [existsb].
  - reflexivity.
  - rewrite IH. reflexivity.
  - destruct (p x), (p y); reflexivity.
  - congruence.
Qed.

(** X12.  On geometries made of rings of positions the containment test
    does not depend on the order in which the holes of a polygon, or the
    polygons of a multi-polygon, are listed. *)
Theorem pointInGeometry_order (pt : point) :
  (forall (outer : ring) (holes holes' : list ring),
      holes ≡ₚ holes' ->
      pointInGeometry pt (Some (Polygon (outer :: holes))) =
      pointInGeometry pt (Some (Polygon (outer :: holes'))))
  /\ (forall ps ps' : list (list ring),
      ps ≡ₚ ps' ->
      pointInGeometry pt (Some (MultiPolygon ps)) =
      pointInGeometry pt (Some (MultiPolygon ps'))).
Proof.
  split.
  - intros outer holes holes' H. rewrite !pointInGeometry_Polygon.
    cbn [inside_polygon]. rewrite (forallb_Permutation _ _ _ H). reflexivity.
  - intros ps ps' H. rewrite !pointInGeometry_MultiPolygon.
    rewrite (existsb_Permutation _ _ _ H). reflexivity.
Qed.

Lemma pointInGeometry_order_witness :
  let sq := [xy 0 0; xy 0 10; xy 10 10; xy 10 0] in
  let h1 := [xy 1 1; xy 1 2; xy 2 2; xy 2 1] in
  let h2 := [xy 4 4; xy 4 6; xy 6 6; xy 6 4] in
  pointInGeometry (5, 5) (Some (Polygon (sq :: [h1; h2]))) =
  pointInGeometry (5, 5) (Some (Polygon (sq :: [h2; h1]))).
Proof.
  intros sq h1 h2.
  apply (proj1 (pointInGeometry_order (5, 5)) sq [h1; h2] [h2; h1]).
  apply Permutation_swap.
Defined.

(** ** The stored copies *)

Lemma props_of_with_pid (f : feature) (pid : string) :
  props_of (with_pid f pid) = <["__pid"%string := PStr pid]> (props_of f).
Proof. reflexivity. Qed.

Lemma candidates_with_pid (f : feature) (pid : string) :
  candidates (with_pid f pid) = candidates f.
Proof.
  unfold candidates. rewrite props_of_with_pid. cbn [with_pid feature_id].
  rewrite !lookup_insert_ne by discriminate. reflexivity.
Qed.

(** X13.  The [__pid] stamp does not disturb the derivations: the stored
    copy of a feature has the identifier and the label of the feature, at
    every position, and building the index from stored copies changes
    nothing. *)
Theorem with_pid_transparent (N : Q -> string) :
  (forall f pid i, getParcelId N (with_pid f pid) i = getParcelId N f i)
  /\ (forall f pid p, getParcelLabel N (with_pid f pid) p = getParcelLabel N f p)
  /\ (forall fs, index_features N (index_features N fs) = index_features N fs).
Proof.
  assert (Hid : forall f pid i, getParcelId N (with_pid f pid) i = getParcelId N f i).
  { intros f pid i. unfold getParcelId. rewrite candidates_with_pid. reflexivity. }
  split; [exact Hid | split].
  - intros f pid p. unfold getParcelLabel. rewrite props_of_with_pid.
    rewrite !lookup_insert_ne by discriminate. reflexivity.
  - intros fs. apply list_eq. intros i. rewrite !index_features_lookup.
    destruct (fs !! i) as [f | ]; [ | reflexivity]. cbn [fmap option_fmap option_map].
    f_equal. rewrite Hid. unfold with_pid at 1. cbn [feature_id feature_geometry].
    rewrite props_of_with_pid, insert_insert_eq. reflexivity.
Qed.

(** X14.  Each stored copy keeps the id, the geometry and every property
    of its feature, and reads back the derived identifier under [__pid];
    the index has as many entries as the input. *)
Theorem index_features_copy (N : Q -> string) (fs : list feature) :
  length (index_features N fs) = length fs
  /\ (forall i f,
        fs !! i = Some f ->
        exists f',
          index_features N fs !! i = Some f' /\
          props_of f' !! "__pid"%string = Some (PStr (getParcelId N f i)) /\
          (forall k, k <> "__pid"%string -> props_of f' !! k = props_of f !! k) /\
          feature_id f' = feature_id f /\
          feature_geometry f' = feature_geometry f).
Proof.
  split.
  - unfold index_features. apply length_imap.
  - intros i f Hi. exists (with_pid f (getParcelId N f i)).
    rewrite index_features_lookup, Hi. split; [reflexivity | ].
    rewrite props_of_with_pid. split; [apply lookup_insert_eq | ].
    split; [ | split; reflexivity].
    intros k Hk. apply lookup_insert_ne. congruence.
Qed.

Lemma index_features_copy_witness :
  let f := Feature None (Some {[ "LOT"%string := PStr "12" ]}) None in
  exists f',
    index_features (fun _ => "0"%string) [f] !! 0%nat = Some f' /\
    props_of f' !! "__pid"%string =
      Some (PStr (getParcelId (fun _ => "0"%string) f 0)) /\
    (forall k, k <> "__pid"%string -> props_of f' !! k = props_of f !! k) /\
    feature_id f' = feature_id f /\
    feature_geometry f' = feature_geometry f.
Proof.
  intros f.
  apply (proj2 (index_features_copy (fun _ => "0"%string) [f]) 0%nat f).
  reflexivity.
Defined.

(** ** Identifiers *)

Lemma trimEnd_cons_nonspace (c : ascii) (s : string) :
  is_space c = false -> trimEnd (String c s) <> EmptyString.
Proof.
  intros Hc. cbn [trimEnd]. destruct (trimEnd s); [rewrite Hc | ]; discriminate.
Qed.

Lemma own_candidate_ok (N : Q -> string) (f : feature) (v : option pval) :
  own_candidate N f = Some v -> candidate_ok N v = true.
Proof.
  unfold own_candidate. intros H.
  assert (Hin : In v (List.filter (candidate_ok N) (candidates f))).
  { destruct (List.filter (candidate_ok N) (candidates f)) as [ | w l];
      [discriminate | ].
    injection H as ->. left. reflexivity. }
  apply filter_In in Hin as [_ Hok]. exact Hok.
Qed.

(** X15.  A derived identifier is never blank: trimming it never gives
    the empty string. *)
Theorem getParcelId_not_blank (N : Q -> string) (f : feature) (i : nat) :
  trim (getParcelId N f i) <> ""%string.
Proof.
  destruct (own_candidate N f) as [v | ] eqn:E.
  - rewrite (getParcelId_own N f i v E).
    apply own_candidate_ok, candidate_ok_spec in E. apply E.
  - rewrite (getParcelId_fallback N f i E).
    cbv [String.app]. unfold trim. cbn [trimStart].
    change (is_space "p") with false. cbv iota.
    apply trimEnd_cons_nonspace. reflexivity.
Qed.

(** X16.  The overlay callback derives its identifier with position 0.
    For a feature at position [i] it agrees with the stored identifier
    exactly when the feature has a qualifying candidate or [i] is 0; all
    features without a qualifying candidate get the key "parcel_0". *)
Theorem onEachFeature_pid_agrees (N : Q -> string) (f : feature) (i : nat) :
  (onEachFeature_pid N f = getParcelId N f i <->
   own_candidate N f <> None \/ i = 0%nat)
  /\ (own_candidate N f = None -> onEachFeature_pid N f = "parcel_0"%string).
Proof.
  unfold onEachFeature_pid. split.
  - destruct (own_candidate N f) as [v | ] eqn:E.
    + rewrite !(getParcelId_own N f _ v E). split; [left; discriminate | reflexivity].
    + rewrite !(getParcelId_fallback N f _ E). split.
      * intros H. right. symmetry. apply fallback_inj, H.
      * intros [H | ->]; [congruence | reflexivity].
  - intros E. rewrite (getParcelId_fallback N f _ E). reflexivity.
Qed.

Lemma onEachFeature_pid_agrees_witness :
  onEachFeature_pid (fun _ => "0"%string) (Feature None None None) = "parcel_0"%string.
Proof.
  apply (proj2 (onEachFeature_pid_agrees (fun _ => "0"%string)
                  (Feature None None None) 3)).
  reflexivity.
Defined.

(** ** Parcel notes *)

Lemma set_note_lookup (notes : gmap string string) (pid note k : string) :
  set_note notes pid note !! k =
  if decide (k = pid)
  then (if String.eqb note "" then None else Some note)
  else notes !! k.
Proof.
  unfold set_note. destruct (String.eqb note ""); case_decide; subst.
  - apply lookup_delete_eq.
  - apply lookup_delete_ne. congruence.
  - apply lookup_insert_eq.
  - apply lookup_insert_ne. congruence.
Qed.



(** X18.  For an identifier that is not a member of [Object.prototype],
    after a save the parcel has the trimmed text as its note, or no entry
    when the text is blank, and the note icon test agrees; an object
    without empty notes stays so. *)
Theorem save_note_stored (notes : gmap string string) (pid text : string) :
  inherited pid = false ->
  save_note notes pid text !! pid =
    (if String.eqb (trim text) "" then None else Some (trim text))
  /\ has_note (save_note notes pid text) pid = negb (String.eqb (trim text) "")
  /\ (map_Forall (fun _ s => s <> ""%string) notes ->
      map_Forall (fun _ s => s <> ""%string) (save_note notes pid text)).
Proof.
  intros _.
  assert (Hl : save_note notes pid text !! pid =
               (if String.eqb (trim text) "" then None else Some (trim text))).
  { unfold save_note. rewrite set_note_lookup. case_decide; [reflexivity | congruence]. }
  split; [exact Hl | split].
  - unfold has_note, previousNote. rewrite Hl.
    destruct (String.eqb (trim text) "") eqn:E; simpl; [reflexivity | ].
    rewrite E. reflexivity.
  - intros Hinv k s. unfold save_note. rewrite set_note_lookup.
    case_decide.
    + destruct (String.eqb (trim text) "") eqn:E; [discriminate | ].
      intros Hs. injection Hs as <-. apply String.eqb_neq, E.
    + apply Hinv.
Qed.

Lemma save_note_stored_witness :
  map_Forall (fun _ s => s <> ""%string)
    (save_note {[ "A"%string := "old"%string ]} "B" "   ").
Proof.
  apply (proj2 (proj2 (save_note_stored {[ "A"%string := "old"%string ]} "B" "   "
                         eq_refl))).
  apply map_Forall_singleton. discriminate.
Defined.

(** ** Drawing notes *)

(** X19.  For a drawing, save always writes the trimmed text under
    [note], blank or not; undo then restores the properties exactly when
    they already had a [note], and otherwise leaves [note] set to the
    empty string. *)
Theorem drawing_undo_restores (properties : gmap string string) (text : string) :
  drawing_save properties text !! "note"%string = Some (trim text)
  /\ (forall s, properties !! "note"%string = Some s ->
        drawing_undo (drawing_save properties text)
          (drawing_previousNote properties) = properties)
  /\ (properties !! "note"%string = None ->
        drawing_undo (drawing_save properties text)
          (drawing_previousNote properties)
        = <["note"%string := ""%string]> properties).
Proof.
  unfold drawing_undo, drawing_save, drawing_previousNote.
  split; [apply lookup_insert_eq | split].
  - intros s Hs. rewrite Hs. simpl. rewrite insert_insert_eq.
    apply insert_id, Hs.
  - intros Hn. rewrite Hn. simpl. apply insert_insert_eq.
Qed.

Lemma drawing_undo_restores_witness :
  drawing_undo (drawing_save {[ "note"%string := "old"%string ]} " new ")
    (drawing_previousNote {[ "note"%string := "old"%string ]})
  = {[ "note"%string := "old"%string ]}
  /\ drawing_undo (drawing_save ∅ " new ") (drawing_previousNote ∅)
     = <["note"%string := ""%string]> ∅.
Proof.
  split.
  - apply (proj1 (proj2 (drawing_undo_restores
                           {[ "note"%string := "old"%string ]} " new ")) "old"%string).
    reflexivity.
  - apply (proj2 (proj2 (drawing_undo_restores ∅ " new "))). reflexivity.
Defined.

(** ** A rectangular parcel, end to end *)

(** X20.  With one rectangular parcel in a loaded index and snapping
    enabled, a drawn layer is replaced by the parcel exactly when its
    representative point lies in the half-open rectangle, longitude
    against the first coordinates and latitude against the second; the
    latitudes are at most [2^1022] in magnitude. *)
Theorem on_created_rectangle
    (x0 y0 x1 y1 : Q) (f : feature) (l : layer) (c : latlng) :
  no_overflow y0 = true -> no_overflow y1 = true -> no_overflow (lat c) = true ->
  x0 < x1 -> y0 < y1 ->
  feature_geometry f = Some (Polygon [rectangle x0 y0 x1 y1]) ->
  layerCentroidLatLng l = Some c ->
  on_created (App true [f] true) l =
  Ret (if Qleb x0 (lng c) && Qltb (lng c) x1 && Qleb y0 (lat c) && Qltb (lat c) y1
       then Some f else None).
Proof.
  intros B0 B1 B Hx Hy Hg Hc. unfold on_created. cbn [snapEnabled].
  rewrite (resolve_find _ l c Hc).
  assert (Harr : forallb has_array_coordinates
                   (cadastralFeatures (App true [f] true)) = true).
  { cbn [cadastralFeatures forallb]. unfold has_array_coordinates.
    rewrite Hg. reflexivity. }
  rewrite (findParcelFeatureAtLatLng_matches (App true [f] true) c eq_refl Harr).
  cbn [cadastralFeatures List.find]. f_equal.
  assert (Hcont : contains (lng c, lat c) f =
                  Qleb x0 (lng c) && Qltb (lng c) x1 && Qleb y0 (lat c) && Qltb (lat c) y1).
  { unfold contains. rewrite Hg, pointInGeometry_Polygon.
    cbn [inside_polygon forallb]. rewrite andb_true_r. unfold inside_ring.
    rewrite (rectangle_test x0 y0 x1 y1 (lng c) (lat c) B0 B1 B Hx Hy).
    destruct (Qleb x0 (lng c) && Qltb (lng c) x1 && Qleb y0 (lat c) && Qltb (lat c) y1);
      reflexivity. }
  assert (Hm : matches (lng c, lat c) f = contains (lng c, lat c) f).
  { unfold matches. rewrite Hg.
    change (bboxOfCoords (coordinates (Polygon [rectangle x0 y0 x1 y1])))
      with (Ret (walk (polygon_arr [rectangle x0 y0 x1 y1]) bbox_init)).
    cbv iota.
    destruct (outside (lng c, lat c)
                (walk (polygon_arr [rectangle x0 y0 x1 y1]) bbox_init)) eqn:Eo;
      [ | reflexivity].
    cbn [negb andb]. symmetry. rewrite Hcont.
    apply outside_aside in Eo.
    change (leaves (polygon_arr [rectangle x0 y0 x1 y1]))
      with ([xy x0 y0; xy x0 y1; xy x1 y1; xy x1 y0]) in Eo.
    unfold Qleb.
    destruct (Qltb (lng c) x0) eqn:C0; [reflexivity | ].
    destruct (Qltb (lng c) x1) eqn:C1; [ | reflexivity].
    destruct (Qltb (lat c) y0) eqn:D0; [reflexivity | ].
    destruct (Qltb (lat c) y1) eqn:D1; [ | reflexivity].
    exfalso. apply Qltb_ge in C0, D0. apply Qltb_lt in C1, D1.
    destruct Eo as [H | [H | [H | H]]];
      repeat (apply Forall_cons in H as [? H]);
      cbn [fst snd px py xy] in *; lra. }
  rewrite Hm, Hcont.
  destruct (Qleb x0 (lng c) && Qltb (lng c) x1 && Qleb y0 (lat c) && Qltb (lat c) y1);
    reflexivity.
Qed.

Lemma on_created_rectangle_witness :
  on_created (App true [Feature None None (Some (Polygon [rectangle 0 20 10 30]))] true)
    (Layer None (Some (LatLng 25 5)))
  = Ret (if Qleb 0 5 && Qltb 5 10 && Qleb 20 25 && Qltb 25 30
         then Some (Feature None None (Some (Polygon [rectangle 0 20 10 30])))
         else None).
Proof.
  apply (on_created_rectangle 0 20 10 30 _ _ (LatLng 25 5)); reflexivity.
Defined.

(** ** Nesting *)

(** X21.  The box depends on the positions only, not on how the arrays
    that hold them are nested. *)
Theorem bboxOfCoords_nesting (a b : arr) :
  leaves a = leaves b -> bboxOfCoords (Array a) = bboxOfCoords (Array b).
Proof.
  intros H. cbn [bboxOfCoords]. rewrite !walk_leaves, H. reflexivity.
Qed.

Lemma bboxOfCoords_nesting_witness :
  bboxOfCoords (Array (polygon_arr [[xy 0 0; xy 1 5]; [xy 2 2]])) =
  bboxOfCoords (Array (multipolygon_arr [[[xy 0 0]]; [[xy 1 5; xy 2 2]]])).
Proof. apply bboxOfCoords_nesting. reflexivity. Defined.
